(** * nginx_totp_auth: the request handler of [server.cc], embedded and verified

    The development follows [src/server.cc]: the cookie codec
    ([create_cookie], [check_cookie]), the TOTP verifier ([totp_calc],
    [totp_valid]), the request handler ([process_req]) and the client-address
    key computed in [work].

    Conventions.
    - [std::string] is [string]: a sequence of 8-bit characters.
    - C++ integers are [Z]; every conversion to a fixed-width type is written
      out with [mod] (see [u8], [u32], [u64], [s32]).
    - [std::unordered_map<std::string, T>] is [gmap string T].
    - Undefined behaviour (reading an array out of bounds, signed overflow,
      division by zero) is the failure of an error monad. *)

From Stdlib Require Import ZArith Ascii String List Lia Bool.
From stdpp Require Import base option gmap strings.
From coqutil Require Import Z.prove_Zeq_bitwise.

Local Open Scope Z_scope.

(* [String.append] unfolds under [simpl] when its first argument is a
   constructor. *)
#[local] Arguments String.append !_ _ / : simpl nomatch.

(** ** Fixed-width integers *)

Definition u8  (z : Z) : Z := z mod 2^8.
Definition u32 (z : Z) : Z := z mod 2^32.
Definition u64 (z : Z) : Z := z mod 2^64.

Definition INT_MAX : Z := 2^31 - 1.
Definition INT_MIN : Z := - 2^31.
Definition LONG_MAX : Z := 2^63 - 1.
Definition LONG_MIN : Z := - 2^63.

(** [(signed)x] for a 32-bit [unsigned x]: two's complement. *)
Definition s32 (z : Z) : Z :=
  let r := u32 z in if r <? 2^31 then r else r - 2^32.

(** ** Characters and strings *)

Definition byte_val (c : ascii) : Z := Z.of_N (N_of_ascii c).
Definition byte_chr (z : Z) : ascii := ascii_of_N (Z.to_N (u8 z)).

Definition CR : ascii := byte_chr 13.
Definition LF : ascii := byte_chr 10.
Definition CRLF : string := String CR (String LF EmptyString).

(** [s.find(c, pos)]; [None] is [std::string::npos]. *)
Fixpoint find (c : ascii) (s : string) (pos : nat) : option nat :=
  match s with
  | EmptyString => None
  | String a s' =>
      match pos with
      | O => if Ascii.eqb a c then Some O else option_map S (find c s' O)
      | S p => option_map S (find c s' p)
      end
  end.

(** [s.substr(pos, len)] and [s.substr(pos)]. *)
Definition substr (pos len : nat) (s : string) : string := substring pos len s.
Definition substr_from (pos : nat) (s : string) : string :=
  substring pos (String.length s - pos) s.

Fixpoint contains (c : ascii) (s : string) : bool :=
  match s with
  | EmptyString => false
  | String a s' => Ascii.eqb a c || contains c s'
  end.

(** ** [std::to_string], [atol], [atoi] *)

Definition digit_chr (d : Z) : ascii := byte_chr (48 + d).

Fixpoint digits_of (fuel : nat) (n : Z) (acc : string) : string :=
  let acc' := String (digit_chr (n mod 10)) acc in
  match fuel with
  | O => acc'
  | S f => if n <? 10 then acc' else digits_of f (n / 10) acc'
  end.

(** Decimal rendering of a signed integer, as [std::to_string] does for
    [long] and [size_t]. The fuel [log2 |n|] covers every digit. *)
Definition to_string (n : Z) : string :=
  if n <? 0
  then String "-" (digits_of (Z.to_nat (Z.log2 (- n))) (- n) EmptyString)
  else digits_of (Z.to_nat (Z.log2 n)) n EmptyString.

Definition isspace (c : ascii) : bool :=
  let n := byte_val c in (n =? 32) || ((9 <=? n) && (n <=? 13)).
Definition isdigit (c : ascii) : bool :=
  let n := byte_val c in (48 <=? n) && (n <=? 57).

Fixpoint skip_space (s : string) : string :=
  match s with
  | EmptyString => EmptyString
  | String c s' => if isspace c then skip_space s' else s
  end.

Fixpoint strtol_digits (s : string) (acc : Z) : Z :=
  match s with
  | EmptyString => acc
  | String c s' =>
      if isdigit c then strtol_digits s' (acc * 10 + (byte_val c - 48)) else acc
  end.

Definition clamp_long (z : Z) : Z := Z.max LONG_MIN (Z.min LONG_MAX z).

(** [strtol(s, NULL, 10)]: leading white space, an optional sign, then the
    longest run of decimal digits; no digits gives 0; out-of-range values
    saturate. Parsing stops at the first character that is not a digit, so
    the NUL that ends [c_str()] needs no special case. *)
Definition strtol (s : string) : Z :=
  match skip_space s with
  | String "-" s' => clamp_long (- strtol_digits s' 0)
  | String "+" s' => clamp_long (strtol_digits s' 0)
  | s' => clamp_long (strtol_digits s' 0)
  end.

(** glibc: [atol(s) = strtol(s, NULL, 10)], [atoi(s) = (int) strtol(s, NULL, 10)]. *)
Definition atol (s : string) : Z := strtol s.
Definition atoi (s : string) : Z := s32 (strtol s).

(** ** [util.h]: hexadecimal codec and new-line stripping *)

Definition hexc : string := "0123456789abcdef".

Definition hex_digit (n : Z) : ascii :=
  match String.get (Z.to_nat n) hexc with
  | Some c => c
  | None => "0"%char
  end.

(** Modelled from the spec: [hexencode] of util.h is not part of the
    sources at hand. Section 3: hex uses lowercase, two nibbles per byte. *)
Fixpoint hexencode (s : string) : string :=
  match s with
  | EmptyString => EmptyString
  | String c s' =>
      String (hex_digit (Z.shiftr (byte_val c) 4))
        (String (hex_digit (Z.land (byte_val c) 15)) (hexencode s'))
  end.

Definition hex_val (c : ascii) : option Z :=
  let n := byte_val c in
  if (48 <=? n) && (n <=? 57) then Some (n - 48)
  else if (97 <=? n) && (n <=? 102) then Some (n - 87)
  else if (65 <=? n) && (n <=? 70) then Some (n - 55)
  else None.

(** Modelled from the spec: [hexdecode] of util.h is not part of the
    sources at hand. Section 4.1: it fails on odd length or on a character
    that is no hex digit; [None] is that failure. *)
Fixpoint hexdecode (s : string) : option string :=
  match s with
  | EmptyString => Some EmptyString
  | String _ EmptyString => None
  | String a (String b rest) =>
      match hex_val a, hex_val b, hexdecode rest with
      | Some h, Some l, Some r => Some (String (byte_chr (h * 16 + l)) r)
      | _, _, _ => None
      end
  end.

(** Modelled from the spec: [stripnl] of util.h is not part of the sources
    at hand. Section 4.6: the location is sanitized by removing any CR and
    LF characters. *)
Fixpoint stripnl (s : string) : string :=
  match s with
  | EmptyString => EmptyString
  | String c s' =>
      if Ascii.eqb c CR || Ascii.eqb c LF then stripnl s' else String c (stripnl s')
  end.

(** ** Data model *)

Inductive htAlgo := hAlgoSha1 | hAlgoSha256 | hAlgoSha512.

(** The enumerator values: [hAlgoSha1 = 0], [hAlgoSha256 = 1],
    [hAlgoSha512 = 2]. *)
Definition algo_index (a : htAlgo) : nat :=
  match a with hAlgoSha1 => 0 | hAlgoSha256 => 1 | hAlgoSha512 => 2 end.

(** Size in bytes of the digest each algorithm produces. *)
Definition digest_size (a : htAlgo) : nat :=
  match a with hAlgoSha1 => 20 | hAlgoSha256 => 32 | hAlgoSha512 => 64 end.

Record cred_t := Cred {
  password : string;     (* pass *)
  totp : string;         (* TOTP secret, binary *)
  sduration : Z;         (* unsigned: duration of a valid session (seconds) *)
  digits : Z;            (* unsigned: digits of TOTP *)
  period : Z;            (* unsigned: period of TOTP *)
  algorithm : htAlgo     (* TOTP hashing algorithm *)
}.

Record web_t := Web {
  webtemplate : string;
  totp_generations : Z;  (* unsigned *)
  users : gmap string cred_t
}.

Record web_req := WebReq {
  method : string;
  host : string;
  uri : string;
  getvars : gmap string string;
  postvars : gmap string string;
  cookies : gmap string string;
  ip64 : Z               (* uint64_t *)
}.

(** The fields of a credential hold values of their C++ types, and the
    loader in [main] only stores credentials with [6 <= digits <= 9] and
    [period > 0]. *)
Definition cred_ok (c : cred_t) : Prop :=
  0 <= sduration c < 2^32 /\ 6 <= digits c <= 9 /\ 0 < period c < 2^32.

(** [m[k]] on a [StrMap]: a missing key reads as the empty string (the
    insertion of that default is not observable in the response). *)
Definition strmap_get (m : gmap string string) (k : string) : string :=
  default EmptyString (m !! k).

Definition is_empty (s : string) : bool :=
  match s with EmptyString => true | _ => false end.

(** [struct in6_addr]: [s6_addr] is an array of 16 bytes, indexed 0..15.
    [struct in_addr]: [s_addr] is a [uint32_t] that [inet_pton] fills with
    the address in network byte order. *)
Record in6_addr := In6Addr { s6_addr : nat -> ascii }.
Record in_addr := InAddr { s_addr : Z }.

(** ** Undefined behaviour

    Code that may read out of bounds runs in the [option] monad of stdpp
    ([x ← m; k], [mret]): [None] is undefined behaviour. *)

(** [((uint8_t* )s.c_str())[i]]: the bytes of [s], then the terminating
    NUL at index [s.size()]; any other index is out of bounds. *)
Definition c_str_at (s : string) (i : Z) : option Z :=
  if (0 <=? i) && (i <? Z.of_nat (String.length s)) then
    option_map byte_val (String.get (Z.to_nat i) s)
  else if i =? Z.of_nat (String.length s) then Some 0
  else None.

Definition po10 : list Z :=
  [1; 10; 100; 1000; 10000; 100000; 1000000; 10000000; 100000000; 1000000000].

(** Stand-ins of the right digest sizes for the HMAC functions of util.h,
    used to run the handler on concrete requests. *)
Fixpoint pad_to (n : nat) (s : string) : string :=
  match n with
  | O => EmptyString
  | S n' =>
      match s with
      | EmptyString => String zero (pad_to n' EmptyString)
      | String c s' => String c (pad_to n' s')
      end
  end.

Definition demo_mac (n : nat) (key msg : string) : string := pad_to n (msg +:+ key).

(** ** Reading a CGI response

    A response is a header block, a blank line and a body. These functions
    take the text the handler returns apart the way the gateway does: the
    header block ends at the first blank line, its first line is
    [Status: <code>], every further line is [<name>: <value>]. *)

Fixpoint split_at (sep s : string) : option (string * string) :=
  if String.prefix sep s then Some (EmptyString, substr_from (String.length sep) s)
  else match s with
       | EmptyString => None
       | String a s' =>
           match split_at sep s' with
           | Some (l, r) => Some (String a l, r)
           | None => None
           end
       end.

Fixpoint split_lines (fuel : nat) (s : string) : list string :=
  match fuel with
  | O => [s]
  | S f =>
      match split_at CRLF s with
      | Some (l, r) => l :: split_lines f r
      | None => [s]
      end
  end.

Definition header_of_line (l : string) : option (string * string) := split_at ": " l.

Record response := Response {
  status : Z;
  headers : list (string * string);
  body : string
}.

Definition parse_response (r : string) : option response :=
  match split_at (CRLF +:+ CRLF) r with
  | None => None
  | Some (hd, bd) =>
      match split_lines (String.length hd) hd with
      | [] => None
      | l0 :: ls =>
          match header_of_line l0 with
          | Some ("Status", code) =>
              Some {| status := atol code;
                      headers := omap header_of_line ls;
                      body := bd |}
          | _ => None
          end
      end
  end.

Fixpoint header (name : string) (hs : list (string * string)) : option string :=
  match hs with
  | [] => None
  | (n, v) :: hs' => if String.eqb n name then Some v else header name hs'
  end.

(** ** The handler's effects

    What a handler acts on: the system clock, read by [time(0)] (the [n]-th
    reading is [clock n]), the shared rate limiter and the log. *)

Section Effects.

Context {RateLimiter : Type}.

Record world := World {
  clock : nat -> Z;
  ticks : nat;
  limiter : RateLimiter;
  logged : list string
}.

Definition Handler (A : Type) : Type := world -> option (A * world).

(** A handler threads the world and may run into undefined behaviour. *)
#[export] Instance handler_ret : MRet Handler :=
  fun A (x : A) (w : world) => Some (x, w).

#[export] Instance handler_bind : MBind Handler :=
  fun A B (f : A -> Handler B) (m : Handler A) (w : world) =>
    match m w with
    | Some (x, w') => f x w'
    | None => None
    end.

Definition undefined {A : Type} : Handler A := fun _ => None.

Definition lift {A : Type} (o : option A) : Handler A :=
  fun w => match o with Some x => Some (x, w) | None => None end.

Definition now (w : world) : Z := clock w (ticks w).

Definition tick (w : world) : world :=
  {| clock := clock w; ticks := S (ticks w);
     limiter := limiter w; logged := logged w |}.

Definition set_limiter (rl : RateLimiter) (w : world) : world :=
  {| clock := clock w; ticks := ticks w; limiter := rl; logged := logged w |}.

Definition add_log (line : string) (w : world) : world :=
  {| clock := clock w; ticks := ticks w;
     limiter := limiter w; logged := logged w ++ [line] |}.

(** [time(0)] *)
Definition time0 : Handler Z := fun w => Some (now w, tick w).

(** [logger->log(line)] *)
Definition log (line : string) : Handler unit :=
  fun w => Some (tt, add_log line w).

End Effects.

Arguments world : clear implicits.
Arguments Handler : clear implicits.

(** ** Vocabulary of the statements *)

Fixpoint count_char (c : ascii) (s : string) : nat :=
  match s with
  | EmptyString => 0
  | String a s' => (if Ascii.eqb a c then 1 else 0) + count_char c s'
  end.

Definition starts_with_digit (s : string) : bool :=
  match s with
  | EmptyString => false
  | String c _ => isdigit c
  end.

(** No decimal integer can be read at the start of [s]: after the white
    space and an optional sign there is no digit. *)
Definition no_number (s : string) : bool :=
  match skip_space s with
  | String "-" s' => negb (starts_with_digit s')
  | String "+" s' => negb (starts_with_digit s')
  | s' => negb (starts_with_digit s')
  end.

Definition byte_at (h : string) (i : Z) : Z :=
  match String.get (Z.to_nat i) h with
  | Some c => byte_val c
  | None => 0
  end.

(** The dynamic truncation as the spec words it (section 4.2):
    [offset = h[len(h)-1] & 0x0F] and
    [v = (h[offset] & 0x7F) << 24 | h[offset+1] << 16 | h[offset+2] << 8 | h[offset+3]]. *)
Definition hotp_offset (h : string) : Z :=
  Z.land (byte_at h (Z.of_nat (String.length h) - 1)) 0x0F.

Definition hotp_value_spec (h : string) : Z :=
  let offset := hotp_offset h in
  Z.lor (Z.lor (Z.lor
    (Z.shiftl (Z.land (byte_at h offset) 0x7F) 24)
    (Z.shiftl (byte_at h (offset + 1)) 16))
    (Z.shiftl (byte_at h (offset + 2)) 8))
    (byte_at h (offset + 3)).

(** A cookie that cannot be taken apart: fewer than two colons, or a
    second or third field that is no hex string. *)
Definition undecodable_cookie (cookie : string) : Prop :=
  (count_char ":" cookie < 2)%nat \/
  exists ts hu hm : string,
    cookie = ts +:+ ":" +:+ hu +:+ ":" +:+ hm /\
    contains ":" ts = false /\ contains ":" hu = false /\
    (hexdecode hu = None \/ hexdecode hm = None).

Fixpoint all_digits (s : string) : bool :=
  match s with
  | EmptyString => true
  | String c s' => isdigit c && all_digits s'
  end.

(** A decimal integer: an optional minus sign, then digits, at least one,
    and nothing else. *)
Definition decimal_integer (s : string) : bool :=
  match s with
  | String "-" (String c s') => all_digits (String c s')
  | String c s' => all_digits (String c s')
  | EmptyString => false
  end.

(** A cookie that does not have the shape [time:hex(user):hex(hmac)] of
    the spec (section 4.4): it cannot be taken apart, or its first field
    is no decimal integer. *)
Definition malformed_cookie (cookie : string) : Prop :=
  undecodable_cookie cookie \/
  exists ts r : string,
    cookie = ts +:+ ":" +:+ r /\ contains ":" ts = false /\
    decimal_integer ts = false.

(** ** A small installation, to run the handler on

    One host with one user. The HMAC stand-in [demo_mac] returns the first
    bytes of message and key, so with a secret of twelve bytes ending in
    ["D"] the truncation offset is 4 and the one-time code for counter [n]
    is [n mod 10^digits]. The limiter is a plain per-key token count. *)

Module Demo.

Definition hmac_sha1 : string -> string -> string := demo_mac 20.
Definition hmac_sha256 : string -> string -> string := demo_mac 32.
Definition hmac_sha512 : string -> string -> string := demo_mac 64.

Definition secret : string := "0123456789abcdef".

Definition alice : cred_t :=
  {| password := "pw"; totp := "0123456789AD"; sduration := 3600;
     digits := 6; period := 30; algorithm := hAlgoSha1 |}.

Definition cfg : web_t :=
  {| webtemplate := "login"; totp_generations := 1;
     users := {[ "alice" := alice ]} |}.

(** The same host with [totp_generations = -1] in its configuration file,
    which [main] stores as [(unsigned)-1]. *)
Definition cfg_neg : web_t :=
  {| webtemplate := "login"; totp_generations := 4294967295;
     users := {[ "alice" := alice ]} |}.

Definition page (host rpage : string) (lerror : bool) : string :=
  "<form " +:+ host +:+ " " +:+ rpage +:+ (if lerror then " error>" else ">").

Definition templates : gmap string (string -> string -> bool -> string) :=
  {[ "login" := page ]}.

Definition tokens (key : Z) (rl : gmap Z nat) : nat := default 2%nat (rl !! key).
Definition rl_check (key : Z) (rl : gmap Z nat) : bool * gmap Z nat :=
  (Nat.eqb (tokens key rl) 0, rl).
Definition rl_consume (key : Z) (rl : gmap Z nat) : gmap Z nat :=
  <[key := Nat.pred (tokens key rl)]> rl.

(** A world whose clock shows [t] at every reading. *)
Definition at_time (t : Z) : world (gmap Z nat) :=
  {| clock := fun _ => t; ticks := 0; limiter := ∅; logged := [] |}.

(** Stand-ins for [inet_pton] that know one address of each family. The
    IPv4 value is [s_addr] as a little-endian host reads the bytes
    c0 a8 01 01. *)
Definition addr6 : in6_addr :=
  {| s6_addr := fun i =>
       nth i (map byte_chr [0x20; 0x01; 0x0d; 0xb8; 0x00; 0x01; 0; 0;
                            0; 0; 0; 0; 0; 0; 0; 0x07]) zero |}.
Definition inet_pton6 (s : string) : option in6_addr :=
  if String.eqb s "2001:db8:1::7" then Some addr6 else None.
Definition inet_pton4 (s : string) : option in_addr :=
  if String.eqb s "192.168.1.1" then Some {| s_addr := 0x0101a8c0 |} else None.

Definition request (m u : string) (gv pv ck : gmap string string) : web_req :=
  {| method := m; host := "example.org"; uri := u;
     getvars := gv; postvars := pv; cookies := ck; ip64 := 3232235777 |}.

End Demo.

(** ** The configuration file, as libconfig hands it to [main]

    A setting is an integer, a string, a group of named settings, a list,
    or something else (a float, a boolean). The accessors follow libconfig:
    an accessor of the wrong type gives 0 or NULL, and the length of a
    scalar is 0. *)

#[local] Set Warnings "-register-all".

Inductive setting :=
| CfgInt (z : Z)
| CfgString (s : string)
| CfgGroup (members : list (string * setting))
| CfgList (elems : list setting)
| CfgOther.

Fixpoint member_named (name : string) (ms : list (string * setting)) : option setting :=
  match ms with
  | [] => None
  | (n, v) :: ms' => if String.eqb n name then Some v else member_named name ms'
  end.

(** [config_setting_get_member], also [config_lookup] and
    [config_setting_lookup] on a plain name; [None] is NULL. *)
Definition config_setting_get_member (s : setting) (name : string) : option setting :=
  match s with
  | CfgGroup ms => member_named name ms
  | _ => None
  end.

(** The elements [config_setting_get_elem] gives for the indices below
    [config_setting_length]. *)
Definition config_elems (s : setting) : list setting :=
  match s with
  | CfgGroup ms => map snd ms
  | CfgList es => es
  | _ => []
  end.

(** [config_setting_get_int]: the value, an [int]; 0 for another type. *)
Definition config_setting_get_int (s : setting) : Z :=
  match s with
  | CfgInt z => s32 z
  | _ => 0
  end.

(** [config_setting_get_string]; [None] is NULL. *)
Definition config_setting_get_string (s : setting) : option string :=
  match s with
  | CfgString v => Some v
  | _ => None
  end.

(** [config_lookup_int]: [Some] when the setting exists and is an integer. *)
Definition config_lookup_int (cfg : setting) (name : string) : option Z :=
  match config_setting_get_member cfg name with
  | Some (CfgInt z) => Some (s32 z)
  | _ => None
  end.

(** [config_lookup_string] *)
Definition config_lookup_string (cfg : setting) (name : string) : option string :=
  match config_setting_get_member cfg name with
  | Some (CfgString v) => Some v
  | _ => None
  end.

(** How [main] leaves its start-up: with the configuration loaded, by
    [RET_ERR] (a message on [std::cerr] and exit status 1), or by undefined
    behaviour. *)
Inductive outcome (A : Type) :=
| Loaded (a : A)
| Exit1 (msg : string)
| Undefined.
Arguments Loaded {A} a.
Arguments Exit1 {A} msg.
Arguments Undefined {A}.

#[export] Instance outcome_ret : MRet outcome := fun A (x : A) => Loaded x.

#[export] Instance outcome_bind : MBind outcome :=
  fun A B (f : A -> outcome B) (m : outcome A) =>
    match m with
    | Loaded x => f x
    | Exit1 msg => Exit1 msg
    | Undefined => Undefined
    end.

(** A [std::string] built from a [const char*]: undefined for NULL. *)
Definition std_string (p : option string) : outcome string :=
  match p with
  | Some v => Loaded v
  | None => Undefined
  end.

Definition TOTP_DEF_DIGITS : Z := 6.
Definition TOTP_DEF_PERIOD : Z := 30.
Definition TOTP_DEF_GENS : Z := 1.
Definition TOTP_DEF_ALGO : string := "sha1".

Definition algnames : gmap string htAlgo :=
  {[ "sha1" := hAlgoSha1; "sha-256" := hAlgoSha256; "sha-512" := hAlgoSha512 ]}.

(** What [main] has read when the workers start: the globals [nthreads]
    and [webcfg], and the locals [auths_per_second], [secret], [logpath]. *)
Record config := Config {
  nthreads : Z;
  auths_per_second : Z;
  secret : string;
  logpath : string;
  webcfg : gmap string web_t
}.

(** ** The request body, from [work] *)

Definition MAX_REQ_SIZE : Z := 4 * 1024.

Fixpoint take_bytes (n : nat) (s : string) : string :=
  match n, s with
  | S n', String c s' => String c (take_bytes n' s')
  | _, _ => EmptyString
  end.

(** [char body[MAX_REQ_SIZE+1]] is an array on the stack of [work]; byte
    [i] of an array is [body i]. Before the read it holds what was left
    there, for instance the body of the request before.

    [ibuf.read(body, bsize)] puts the first [bsize] bytes of the stream at
    the front of the array, fewer when the stream ends before, and leaves
    the rest of the array as it was. *)
Definition stream_read (body : nat -> ascii) (bsize : nat) (input : string)
    : nat -> ascii :=
  fun i => match String.get i (take_bytes bsize input) with
           | Some c => c
           | None => body i
           end.

(** [body[k] = c] *)
Definition set_byte (body : nat -> ascii) (k : nat) (c : ascii) : nat -> ascii :=
  fun i => if Nat.eqb i k then c else body i.

(** The [std::string] built from a [char*]: the bytes from index [i] on,
    up to the first NUL; [n] bounds the search. *)
Fixpoint c_string (body : nat -> ascii) (i n : nat) : string :=
  match n with
  | O => EmptyString
  | S n' =>
      if Ascii.eqb (body i) zero then EmptyString
      else String (body i) (c_string body (S i) n')
  end.

(** [content_length] is [FCGX_GetParam("CONTENT_LENGTH", ..)], [None] for
    NULL: [atoi(NULL)] is undefined. [input] is what the request stream
    still holds and [stale] what the array holds before the read. The text
    handed to [parse_vars] runs from the start of the array to the first
    NUL, the one at [body[bsize]] at the latest: when the stream ends
    before [bsize] bytes, bytes the array held before are part of it. *)
Definition request_body (content_length : option string) (input : string)
    (stale : nat -> ascii) : option string :=
  match content_length with
  | None => None
  | Some v =>
      let bsize := Z.to_nat (Z.max 0 (Z.min (atoi v) MAX_REQ_SIZE)) in
      let body := set_byte (stream_read stale bsize input) bsize zero in
      Some (c_string body 0 (S bsize))
  end.

(** ** More vocabulary: the text of a CGI response, big-endian numbers *)

Fixpoint join (sep : string) (ls : list string) : string :=
  match ls with
  | [] => EmptyString
  | [l] => l
  | l :: ls' => l +:+ sep +:+ join sep ls'
  end.

Definition header_line (h : string * string) : string := fst h +:+ ": " +:+ snd h.

(** The text of a response with the given status code, headers and body. *)
Definition cgi_text (code : string) (hs : list (string * string)) (body : string) : string :=
  join CRLF (("Status: " +:+ code) :: map header_line hs) +:+ CRLF +:+ CRLF +:+ body.

(** The number a string of bytes spells, most significant byte first. *)
Fixpoint be_value (s : string) (acc : Z) : Z :=
  match s with
  | EmptyString => acc
  | String c s' => be_value s' (acc * 256 + byte_val c)
  end.

(** ** A second installation, read from a configuration

    Its HMAC stand-in puts the key first, so that the secret shows in the
    MAC; its base32 stand-ins keep the text as it is. *)

Module Site.

Definition keyed_mac (key msg : string) : string := pad_to 20 (key +:+ msg).

Definition b32pad (s : string) : string := s.
Definition b32dec (s : string) : string := s.

Definition user_entry (name pw : string) (dur : Z) (more : list (string * setting))
    : setting :=
  CfgGroup ([("username", CfgString name); ("password", CfgString pw);
             ("totp", CfgString "JBSWY3DPEHPK3PXP"); ("duration", CfgInt dur)] ++ more).

Definition web_entry (hostname : string) (us : list setting) : setting :=
  CfgGroup [("hostname", CfgString hostname); ("template", CfgString "login");
            ("users", CfgList us)].

Definition file : setting :=
  CfgGroup [("nthreads", CfgInt 0); ("secret", CfgString "0123456789abcdef");
            ("webs", CfgList [
               web_entry "example.org"
                 [user_entry "alice" "pw" 3600 [];
                  user_entry "bob" "hunter2" 3600
                    [("digits", CfgInt 8); ("period", CfgInt 60);
                     ("algorithm", CfgString "sha-512")];
                  user_entry "alice" "newer" (-1) []]])].

Definition hosts : gmap string web_t := {[ "example.org" := Demo.cfg ]}.

Definition parse_none (s : string) : gmap string string := ∅.

(** What [main] holds for one host, and the environment of a [GET /auth]
    without a body that names a host. *)
Definition globals : config :=
  {| nthreads := 4; auths_per_second := 2; secret := Demo.secret;
     logpath := "/tmp/totp_auth"; webcfg := hosts |}.

Definition env (name : string) : gmap string string :=
  {[ "CONTENT_LENGTH" := "0"; "REQUEST_METHOD" := "GET";
     "DOCUMENT_URI" := "/auth"; "HTTP_HOST" := name ]}.

(** The array of [work] after a request with the body [username=a]. *)
Definition stale (i : nat) : ascii :=
  match String.get i "username=a" with
  | Some c => c
  | None => zero
  end.

End Site.

(** ** The server *)

Section Server.

(** util.h: the HMAC functions, [key] first, then the message. *)
Variables hmac_sha1 hmac_sha256 hmac_sha512 : string -> string -> string.

(** ratelimit.h: [rl->check(key)] tells whether the key is denied,
    [rl->consume(key)] takes a token; either may update the limiter. *)
Variable RateLimiter : Type.
Variable rl_check : Z -> RateLimiter -> bool * RateLimiter.
Variable rl_consume : Z -> RateLimiter -> RateLimiter.

(** templates.h: the registry of page templates, each a function of the
    host, the follow page and the error flag. *)
Variable templates : gmap string (string -> string -> bool -> string).

(** libc: [inet_pton(AF_INET6, ..)] and [inet_pton(AF_INET, ..)]; [Some]
    is the return value 1. *)
Variable inet_pton6 : string -> option in6_addr.
Variable inet_pton4 : string -> option in_addr.

(** The member [cookie_secret]. *)
Variable cookie_secret : string.

Definition check (key : Z) : Handler RateLimiter bool :=
  fun w => let '(denied, rl) := rl_check key (limiter w) in
           Some (denied, set_limiter rl w).

Definition consume (key : Z) : Handler RateLimiter unit :=
  fun w => Some (tt, set_limiter (rl_consume key (limiter w)) w).

(** *** Cookies *)

Definition create_cookie (user : string) : Handler RateLimiter string :=
  t ← time0;
  let payload := to_string t +:+ ":" +:+ hexencode user in
  mret (payload +:+ ":" +:+ hexencode (hmac_sha1 cookie_secret payload)).

(** Returns true if the cookie is good. A hex field that does not decode
    denies (spec, section 4.4). *)
Definition check_cookie (cookie : string) (wcfg : web_t) : Handler RateLimiter bool :=
  match find ":" cookie 0 with
  | None => mret false
  | Some p1 =>
      match find ":" cookie (p1 + 1) with
      | None => mret false
      | Some p2 =>
          let c1 := substr 0 p1 cookie in
          match hexdecode (substr (p1 + 1) (p2 - p1 - 1) cookie),
                hexdecode (substr_from (p2 + 1) cookie) with
          | Some user, Some hmac =>
              let ets := u64 (atol c1) in
              match users wcfg !! user with
              | None => mret false
              | Some cred =>
                  let duration := sduration cred in
                  t ← time0;
                  if u32 t >? u64 (ets + duration) then mret false
                  else
                    let hmac_calc := hmac_sha1 cookie_secret (substr 0 p2 cookie) in
                    mret (String.eqb hmac hmac_calc)
              end
          | _, _ => mret false
          end
      end
  end.

(** *** TOTP *)

Definition algtbl : list (string -> string -> string) :=
  [hmac_sha1; hmac_sha256; hmac_sha512].

(** The HMAC function that belongs to an algorithm. *)
Definition hmac_of (algo : htAlgo) : string -> string -> string :=
  match algo with
  | hAlgoSha1 => hmac_sha1
  | hAlgoSha256 => hmac_sha256
  | hAlgoSha512 => hmac_sha512
  end.

(** [msg]: the counter in big endian fashion, in eight bytes. *)
Definition totp_msg (epoch : Z) : string :=
  String zero (String zero (String zero (String zero
 (String (byte_chr (Z.shiftr epoch 24))
 (String (byte_chr (Z.land (Z.shiftr epoch 16) 255))
 (String (byte_chr (Z.land (Z.shiftr epoch 8) 255))
 (String (byte_chr (Z.land epoch 255)) EmptyString))))))).

(** [value]: the four bytes at the offset, assembled in [int], stored in
    a [uint32_t], then masked with [0x7fffffff]. *)
Definition totp_word (h0 h1 h2 h3 : Z) : Z :=
  let value :=
    u32 (Z.lor (Z.lor (Z.lor (Z.shiftl h0 24) (Z.shiftl h1 16)) (Z.shiftl h2 8)) h3) in
  Z.land value 0x7fffffff.

(** The parameters [digits] and [epoch] are a [uint8_t] and a [uint32_t]:
    the arguments are converted on entry. *)
Definition totp_calc (key : string) (algo : htAlgo) (digits epoch : Z) : option Z :=
  let digits := u8 digits in
  let epoch := u32 epoch in
  let msg := totp_msg epoch in
  f ← algtbl !! algo_index algo;
  let hashs := f key msg in
  last ← c_str_at hashs (u64 (Z.of_nat (String.length hashs) - 1));
  let off := Z.land last 15 in
  h0 ← c_str_at hashs off;
  h1 ← c_str_at hashs (off + 1);
  h2 ← c_str_at hashs (off + 2);
  h3 ← c_str_at hashs (off + 3);
  let value := totp_word h0 h1 h2 h3 in
  p ← po10 !! Z.to_nat digits;
  mret (value mod p).

(** The [for] loop of [totp_valid]: [n] iterations are left and the loop
    variable is [i]. Incrementing [i] past [INT_MAX] is undefined. *)
Fixpoint totp_scan (user : cred_t) (input ct : Z) (n : nat) (i : Z) : option bool :=
  match n with
  | O => Some false
  | S n' =>
      v ← totp_calc (totp user) (algorithm user) (digits user) (u32 (ct + i));
      if v =? input then Some true
      else if i =? INT_MAX then None
      else totp_scan user input ct n' (i + 1)
  end.

Definition totp_valid (user : cred_t) (input generations : Z) : Handler RateLimiter bool :=
  t ← time0;
  if period user =? 0 then undefined
  else
    let ct := u32 (Z.quot t (period user)) in
    let g := s32 generations in
    if g =? INT_MIN then undefined
    else lift (totp_scan user input ct (Z.to_nat (g - (- g) + 1)) (- g)).

(** *** The request handler *)

Definition login_page (req : web_req) (wcfg : web_t) (rpage : string)
    (lerror : bool) : string :=
  match templates !! webtemplate wcfg with
  | None =>
      "Status: 500" +:+ CRLF +:+ "Content-Type: text/plain" +:+ CRLF +:+
      "Content-Length: 23" +:+ CRLF +:+ CRLF +:+ "Could not find template"
  | Some render =>
      let page := render (host req) rpage lerror in
      "Status: 200" +:+ CRLF +:+ "Content-Type: text/html" +:+ CRLF +:+
      "Content-Length: " +:+ to_string (Z.of_nat (String.length page)) +:+
      CRLF +:+ CRLF +:+ page
  end.

(** [users.count(user) && users.at(user).password == pass &&
    totp_valid(..)], evaluated left to right. *)
Definition credentials_ok (wcfg : web_t) (user pass : string) (totp : Z)
    : Handler RateLimiter bool :=
  match users wcfg !! user with
  | None => mret false
  | Some cred =>
      if String.eqb (password cred) pass
      then totp_valid cred totp (totp_generations wcfg)
      else mret false
  end.

(** [rpage]: the page to go to after the login, never empty. *)
Definition follow_page (req : web_req) : string :=
  let rpage := strmap_get (getvars req) "follow_page" in
  let rpage := if is_empty rpage then strmap_get (postvars req) "follow_page" else rpage in
  if is_empty rpage then "/" else rpage.

(** The [/login] branch after the rate limiter: the credentials of a POST
    are validated to issue a cookie, anything else renders the page. *)
Definition login_form (req : web_req) (wcfg : web_t) (rpage : string)
    : Handler RateLimiter string :=
  if String.eqb (method req) "POST" then
    let user := strmap_get (postvars req) "username" in
    let pass := strmap_get (postvars req) "password" in
    let totp := u32 (atoi (strmap_get (postvars req) "totp")) in
    credentials_ok wcfg user pass totp ≫= fun ok : bool =>
    if ok then
      log ("Login successful for user " +:+ user) ;;
      token ← create_cookie user;
      mret ("Status: 302" +:+ CRLF +:+ "Set-Cookie: authentication-token=" +:+
           token +:+ CRLF +:+ "Location: " +:+ stripnl rpage +:+ CRLF +:+ CRLF)
    else
      log ("Failed login for user " +:+ user) ;;
      mret (login_page req wcfg rpage true)
  else
    mret (login_page req wcfg rpage false).

Definition process_req (req : web_req) (wcfg : web_t) : Handler RateLimiter string :=
  let rpage := follow_page req in
  if String.eqb (uri req) "/auth" then
    check_cookie (strmap_get (cookies req) "authentication-token") wcfg
      ≫= fun authed : bool =>
    if authed then
      log "Requested authentication succeeded" ;;
      mret ("Status: 200" +:+ CRLF +:+ "Content-Type: text/plain" +:+ CRLF +:+
           "Content-Length: 24" +:+ CRLF +:+ CRLF +:+ "Authentication Succeeded")
    else
      log "Requested authentication denied" ;;
      mret ("Status: 401" +:+ CRLF +:+ "Content-Type: text/plain" +:+ CRLF +:+
           "Content-Length: 21" +:+ CRLF +:+ CRLF +:+ "Authentication Denied")
  else if String.eqb (uri req) "/login" then
    check (ip64 req) ≫= fun denied : bool =>
    if denied then
      log ("Rate limit hit for ip id " +:+ to_string (ip64 req)) ;;
      mret ("Status: 429" +:+ CRLF +:+ "Content-Type: text/plain" +:+ CRLF +:+
           "Content-Length: 34" +:+ CRLF +:+ CRLF +:+
           "Too many requests, request blocked")
    else
      consume (ip64 req) ;;
      login_form req wcfg rpage
  else if String.eqb (uri req) "/logout" then
    log "Logout requested" ;;
    mret ("Status: 302" +:+ CRLF +:+ "Set-Cookie: authentication-token=null" +:+ CRLF +:+
         "Cache-Control: no-cache, no-store, max-age=0" +:+ CRLF +:+
         "Location: /login" +:+ CRLF +:+ CRLF)
  else
    log ("Unknown request for URL: " +:+ uri req) ;;
    mret ("Status: 404" +:+ CRLF +:+ "Content-Type: text/plain" +:+ CRLF +:+
         "Content-Length: 48" +:+ CRLF +:+
         "Not found, valid endpoints: /auth /login /logout" +:+ CRLF +:+ CRLF).

(** *** The client key, from [work]

    [remote_addr] is [FCGX_GetParam("REMOTE_ADDR", ..)], [None] when the
    parameter is missing. *)
Definition work_ip64 (remote_addr : option string) : Z :=
  let sip := default "0.0.0.0" remote_addr in
  match inet_pton6 sip with
  | Some res6 =>
      let b (i : nat) := byte_val (s6_addr res6 i) in
      u64 (Z.lor (Z.lor (Z.lor (Z.lor (Z.lor
        (Z.shiftl (b 0%nat) 40) (Z.shiftl (b 1%nat) 32))
        (Z.shiftl (b 2%nat) 24)) (Z.shiftl (b 3%nat) 16))
        (Z.shiftl (b 4%nat) 8)) (b 5%nat))
  | None =>
      match inet_pton4 sip with
      | Some res4 => u32 (s_addr res4)
      | None => 0
      end
  end.

(** *** One request, from [work]

    The body of the loop of [work] for one request: [env] is the request's
    environment ([FCGX_GetParam], a missing parameter is NULL), [input] its
    body stream, [stale] what the array [body] holds when the request
    arrives, [globals] what [main] loaded. The result is what is written
    to the request's output. [parse_vars] and [parse_cookies] are
    the parsers of util.h. *)

Variable parse_vars : string -> gmap string string.
Variable parse_cookies : string -> gmap string string.

Definition work_request (globals : config) (env : gmap string string) (input : string)
    (stale : nat -> ascii) : Handler RateLimiter string :=
  body ← lift (request_body (env !! "CONTENT_LENGTH") input stale);
  let wreq :=
    {| method := default "" (env !! "REQUEST_METHOD");
       uri := default "" (env !! "DOCUMENT_URI");
       getvars := parse_vars (default "" (env !! "QUERY_STRING"));
       postvars := parse_vars body;
       host := default "" (env !! "HTTP_HOST");
       cookies := parse_cookies (default "" (env !! "HTTP_COOKIE"));
       ip64 := work_ip64 (env !! "REMOTE_ADDR") |} in
  match webcfg globals !! host wreq with
  | None =>
      log ("Failed to find host '" +:+ host wreq +:+ "'") ;;
      mret ("Status: 500" +:+ CRLF +:+ "Content-Type: text/plain" +:+ CRLF +:+
            "Content-Length: " +:+ to_string (Z.of_nat (String.length (host wreq)) + 18) +:+
            CRLF +:+ CRLF +:+ "Unknown hostname: " +:+ host wreq)
  | Some wptr => process_req wreq wptr
  end.

(** *** The constructor

    [csecret] is the configured secret and [rnd] what [randstr()] returns
    for this worker. *)
Definition worker_secret (csecret rnd : string) : string :=
  if is_empty csecret then rnd else csecret.

(** *** Reading the configuration, from [main]

    [b32pad] and [b32dec] are the base32 functions of util.h. *)

Variable b32pad : string -> string.
Variable b32dec : string -> string.

(** The body of the loop over the users of a web entry. *)
Definition load_user (userentry : setting) (users : gmap string cred_t)
    : outcome (gmap string cred_t) :=
  let user := config_setting_get_member userentry "username" in
  let pass := config_setting_get_member userentry "password" in
  let totp := config_setting_get_member userentry "totp" in
  let algo := config_setting_get_member userentry "algorithm" in
  let digi := config_setting_get_member userentry "digits" in
  let peri := config_setting_get_member userentry "period" in
  let durt := config_setting_get_member userentry "duration" in
  algorithm ← match algo with
              | None => Loaded TOTP_DEF_ALGO
              | Some a => std_string (config_setting_get_string a)
              end;
  let digits := match digi with
                | None => TOTP_DEF_DIGITS
                | Some d => config_setting_get_int d
                end in
  let period := match peri with
                | None => TOTP_DEF_PERIOD
                | Some p => config_setting_get_int p
                end in
  match user, pass, totp, durt with
  | Some user, Some pass, Some totp, Some durt =>
      if (digits <? 6) || (digits >? 9) then
        Exit1 "digits must be between 6 and 9 (included)"
      else if period <=? 0 then
        Exit1 "period must be bigger than zero"
      else
        match algnames !! algorithm with
        | None => Exit1 "invalid algorithm specified"
        | Some alg =>
            name ← std_string (config_setting_get_string user);
            password ← std_string (config_setting_get_string pass);
            key ← std_string (config_setting_get_string totp);
            Loaded (<[name :=
                       {| password := password;
                          totp := b32dec (b32pad key);
                          sduration := u32 (config_setting_get_int durt);
                          digits := u32 digits;
                          period := u32 period;
                          algorithm := alg |}]> users)
        end
  | _, _, _, _ =>
      Exit1 "username, password, totp and duration must be present in the user group"
  end.

Fixpoint load_users (entries : list setting) (users : gmap string cred_t)
    : outcome (gmap string cred_t) :=
  match entries with
  | [] => Loaded users
  | e :: entries' => users' ← load_user e users; load_users entries' users'
  end.

(** The body of the loop over the web entries. *)
Definition load_web (webentry : setting) (webs : gmap string web_t)
    : outcome (gmap string web_t) :=
  let hostname := config_setting_get_member webentry "hostname" in
  let wtemplate := config_setting_get_member webentry "template" in
  let totp_gens := config_setting_get_member webentry "totp_generations" in
  let users_cfg := config_setting_get_member webentry "users" in
  match hostname, wtemplate, users_cfg with
  | Some hostname, Some wtemplate, Some users_cfg =>
      template ← std_string (config_setting_get_string wtemplate);
      let generations := match totp_gens with
                         | None => TOTP_DEF_GENS
                         | Some g => u32 (config_setting_get_int g)
                         end in
      users ← load_users (config_elems users_cfg) ∅;
      name ← std_string (config_setting_get_string hostname);
      Loaded (<[name := {| webtemplate := template;
                           totp_generations := generations;
                           users := users |}]> webs)
  | _, _, _ => Exit1 "hostname, template and users must be present in the web group"
  end.

Fixpoint load_webs (entries : list setting) (webs : gmap string web_t)
    : outcome (gmap string web_t) :=
  match entries with
  | [] => Loaded webs
  | e :: entries' => webs' ← load_web e webs; load_webs entries' webs'
  end.

(** [main] from the parsed configuration [cfg] to the start of the
    workers. *)
Definition load_config (cfg : setting) : outcome config :=
  let nthreads := default 4 (config_lookup_int cfg "nthreads") in
  let nthreads := Z.max nthreads 1 in
  let auths_per_second := default 2 (u32 <$> config_lookup_int cfg "auth_per_second") in
  match config_lookup_string cfg "secret" with
  | None => Exit1 "'secret' missing, this field is required"
  | Some secret =>
      let logpath := default "/tmp/totp_auth" (config_lookup_string cfg "log-path") in
      match config_setting_get_member cfg "webs" with
      | None => Exit1 "Missing 'webs' config array definition"
      | Some webs_cfg =>
          if (length (config_elems webs_cfg) =? 0)%nat then
            Exit1 "webscnt must be an array of 1 or more elements"
          else
            webs ← load_webs (config_elems webs_cfg) ∅;
            Loaded {| nthreads := nthreads;
                      auths_per_second := auths_per_second;
                      secret := secret;
                      logpath := logpath;
                      webcfg := webs |}
      end
  end.

(** Runs the binds of a handler on the world at hand. *)
Ltac run_handler :=
  cbv beta iota delta
    [mbind mret handler_bind handler_ret option_bind option_ret time0 log lift].

(** ** Facts about strings *)

Lemma append_assoc (a b c : string) : (a +:+ b) +:+ c = a +:+ (b +:+ c).
Proof. induction a as [|x a IH]; simpl; [reflexivity | now rewrite IH]. Qed.

Lemma length_append (a b : string) :
  String.length (a +:+ b) = (String.length a + String.length b)%nat.
Proof. induction a as [|x a IH]; simpl; [reflexivity | now rewrite IH]. Qed.

Lemma contains_append c (a b : string) :
  contains c (a +:+ b) = contains c a || contains c b.
Proof.
  induction a as [|x a IH]; simpl; [reflexivity|].
  rewrite IH. now rewrite orb_assoc.
Qed.

Lemma find_skip c (a b : string) (k : nat) :
  find c (a +:+ b) (String.length a + k) =
  option_map (Nat.add (String.length a)) (find c b k).
Proof.
  induction a as [|x a IH]; simpl.
  - now destruct (find c b k).
  - rewrite IH. now destruct (find c b k).
Qed.

Lemma find_absent c (a b : string) :
  contains c a = false ->
  find c (a +:+ b) 0 = option_map (Nat.add (String.length a)) (find c b 0).
Proof.
  induction a as [|x a IH]; simpl; intros Hc.
  - now destruct (find c b 0).
  - apply orb_false_iff in Hc as [Hx Ha]. rewrite Hx, (IH Ha).
    now destruct (find c b 0).
Qed.

Lemma find_head c (b : string) : find c (String c b) 0 = Some 0%nat.
Proof. simpl. now rewrite Ascii.eqb_refl. Qed.

Lemma find_some_count c (s : string) (k p : nat) :
  find c s k = Some p -> (1 <= count_char c s)%nat.
Proof.
  revert k p. induction s as [|a s IH]; simpl; intros k p H; [discriminate|].
  destruct k as [|k].
  - destruct (Ascii.eqb a c); [lia|].
    destruct (find c s 0) eqn:E; [|discriminate]. specialize (IH _ _ E). lia.
  - destruct (find c s k) eqn:E; [|discriminate]. specialize (IH _ _ E). lia.
Qed.

Lemma find_twice_count c (s : string) (p q : nat) :
  find c s 0 = Some p -> find c s (p + 1) = Some q -> (2 <= count_char c s)%nat.
Proof.
  revert p q. induction s as [|a s IH]; simpl; intros p q H1 H2; [discriminate|].
  destruct (Ascii.eqb a c).
  - injection H1 as <-. simpl in H2.
    destruct (find c s 0) eqn:E; [|discriminate].
    apply find_some_count in E. lia.
  - destruct (find c s 0) eqn:E; [|discriminate].
    injection H1 as <-. simpl in H2.
    destruct (find c s (n + 1)) eqn:E2; [|discriminate].
    specialize (IH _ _ eq_refl E2). lia.
Qed.

Lemma split_first c (s : string) :
  (1 <= count_char c s)%nat ->
  exists a b : string,
    s = a +:+ String c b /\ contains c a = false /\
    count_char c s = S (count_char c b).
Proof.
  induction s as [|x s IH]; simpl; intros H; [lia|].
  destruct (Ascii.eqb x c) eqn:E.
  - apply Ascii.eqb_eq in E as ->. exists EmptyString, s. repeat split.
  - destruct IH as (a & b & -> & Ha & Hc); [lia|].
    exists (String x a), b. simpl. rewrite E, Ha. repeat split. exact Hc.
Qed.

(** Every string with two colons or more is made of three fields, the
    first two without a colon. *)
Lemma cookie_fields (cookie : string) :
  (2 <= count_char ":" cookie)%nat ->
  exists ts hu hm : string,
    cookie = ts +:+ ":" +:+ hu +:+ ":" +:+ hm /\
    contains ":" ts = false /\ contains ":" hu = false.
Proof.
  intros H.
  destruct (split_first ":" cookie) as (ts & r & -> & Hts & Hc); [lia|].
  destruct (split_first ":" r) as (hu & hm & -> & Hhu & _); [lia|].
  exists ts, hu, hm. repeat split; assumption.
Qed.

Lemma substring_prefix (a b : string) :
  substring 0 (String.length a) (a +:+ b) = a.
Proof.
  induction a as [|x a IH]; simpl.
  - now destruct b.
  - now rewrite IH.
Qed.

Lemma substring_skip (a b : string) (k m : nat) :
  substring (String.length a + k) m (a +:+ b) = substring k m b.
Proof. induction a as [|x a IH]; simpl; [reflexivity | apply IH]. Qed.

Lemma substring_all (a : string) : substring 0 (String.length a) a = a.
Proof. induction a as [|x a IH]; simpl; [reflexivity | now rewrite IH]. Qed.

(** ** Bytes, decimal numbers and the hex codec *)

Lemma byte_val_range c : 0 <= byte_val c < 256.
Proof.
  unfold byte_val. pose proof (N_ascii_bounded c). lia.
Qed.

Lemma byte_val_chr z : byte_val (byte_chr z) = z mod 256.
Proof.
  unfold byte_val, byte_chr, u8.
  assert (H : 0 <= z mod 2 ^ 8 < 256) by (apply Z.mod_pos_bound; lia).
  rewrite N_ascii_embedding by lia. rewrite Z2N.id by lia. reflexivity.
Qed.

Lemma byte_chr_val c : byte_chr (byte_val c) = c.
Proof.
  unfold byte_val, byte_chr, u8. pose proof (N_ascii_bounded c).
  rewrite Z.mod_small by lia. rewrite N2Z.id. apply ascii_N_embedding.
Qed.

Ltac digit_cases d :=
  assert (d = 0 \/ d = 1 \/ d = 2 \/ d = 3 \/ d = 4 \/ d = 5 \/ d = 6 \/
          d = 7 \/ d = 8 \/ d = 9) as Hcases by lia;
  repeat (destruct Hcases as [-> | Hcases]); try subst d.

Lemma strtol_digits_digit d (s : string) (acc : Z) :
  0 <= d < 10 ->
  strtol_digits (String (digit_chr d) s) acc = strtol_digits s (acc * 10 + d).
Proof.
  intros Hd. digit_cases d; cbn; f_equal; lia.
Qed.

Lemma strtol_head_digit d (s : string) :
  0 <= d < 10 ->
  strtol (String (digit_chr d) s) = clamp_long (strtol_digits (String (digit_chr d) s) 0).
Proof.
  intros Hd. digit_cases d; reflexivity.
Qed.

Lemma contains_colon_digit d (s : string) :
  0 <= d < 10 -> contains ":" (String (digit_chr d) s) = contains ":" s.
Proof.
  intros Hd. digit_cases d; reflexivity.
Qed.

Lemma log2_tenth m : 10 <= m -> Z.log2 (m / 10) <= Z.log2 m - 1.
Proof.
  intros Hm.
  assert (H2 : Z.log2 (m / 2) = Z.log2 m - 1).
  { change 2 with (2 ^ 1). rewrite <- Z.shiftr_div_pow2 by lia.
    rewrite Z.log2_shiftr by lia.
    assert (1 <= Z.log2 m) by (change 1 with (Z.log2 2) at 1; apply Z.log2_le_mono; lia).
    lia. }
  rewrite <- H2. apply Z.log2_le_mono.
  apply Z.div_le_compat_l; lia.
Qed.

Lemma digits_of_head (f : nat) : forall m (X : string),
  0 <= m -> exists d s', 0 <= d < 10 /\ digits_of f m X = String (digit_chr d) s'.
Proof.
  induction f as [|f IH]; intros m X Hm; simpl.
  - exists (m mod 10), X. split; [apply Z.mod_pos_bound; lia | reflexivity].
  - destruct (m <? 10) eqn:E.
    + exists (m mod 10), X. split; [apply Z.mod_pos_bound; lia | reflexivity].
    + apply IH. apply Z.div_pos; lia.
Qed.

Lemma digits_of_no_colon (f : nat) : forall m (X : string),
  contains ":" (digits_of f m X) = contains ":" X.
Proof.
  induction f as [|f IH]; intros m X; simpl.
  - apply contains_colon_digit. apply Z.mod_pos_bound; lia.
  - destruct (m <? 10).
    + apply contains_colon_digit. apply Z.mod_pos_bound; lia.
    + rewrite IH. apply contains_colon_digit. apply Z.mod_pos_bound; lia.
Qed.

Lemma strtol_digits_of (f : nat) : forall m (X : string),
  0 <= m -> Z.log2 m <= Z.of_nat f ->
  strtol_digits (digits_of f m X) 0 = strtol_digits X m.
Proof.
  induction f as [|f IH]; intros m X Hm Hf.
  - assert (m < 2).
    { destruct (Z_lt_le_dec m 2) as [|Hge]; [assumption|].
      apply Z.log2_le_mono in Hge. change (Z.log2 2) with 1 in Hge. lia. }
    cbn [digits_of]. rewrite strtol_digits_digit by (apply Z.mod_pos_bound; lia).
    f_equal. rewrite Z.mod_small; lia.
  - cbn [digits_of]. destruct (m <? 10) eqn:E.
    + apply Z.ltb_lt in E.
      rewrite strtol_digits_digit by (apply Z.mod_pos_bound; lia).
      f_equal. rewrite Z.mod_small; lia.
    + apply Z.ltb_ge in E.
      rewrite IH.
      * rewrite strtol_digits_digit by (apply Z.mod_pos_bound; lia).
        f_equal. pose proof (Z.div_mod m 10). lia.
      * apply Z.div_pos; lia.
      * pose proof (log2_tenth m E). lia.
Qed.

Lemma strtol_minus (s : string) :
  strtol (String "-" s) = clamp_long (- strtol_digits s 0).
Proof. reflexivity. Qed.

Lemma to_string_no_colon n : contains ":" (to_string n) = false.
Proof.
  unfold to_string. destruct (n <? 0); simpl; now rewrite digits_of_no_colon.
Qed.

(** [atol] reads back what [std::to_string] prints, for every [long]. *)
Lemma atol_to_string n : LONG_MIN <= n <= LONG_MAX -> atol (to_string n) = n.
Proof.
  intros Hn. unfold atol, to_string. destruct (n <? 0) eqn:E.
  - apply Z.ltb_lt in E. rewrite strtol_minus.
    rewrite strtol_digits_of; [| lia | rewrite Z2Nat.id; [lia | apply Z.log2_nonneg]].
    simpl. unfold clamp_long. lia.
  - apply Z.ltb_ge in E.
    destruct (digits_of_head (Z.to_nat (Z.log2 n)) n EmptyString E) as (d & s' & Hd & Hs).
    rewrite Hs, strtol_head_digit by assumption. rewrite <- Hs.
    rewrite strtol_digits_of; [| lia | rewrite Z2Nat.id; [lia | apply Z.log2_nonneg]].
    simpl. unfold clamp_long. lia.
Qed.

Lemma hex_char_roundtrip c :
  exists h l,
    hex_val (hex_digit (Z.shiftr (byte_val c) 4)) = Some h /\
    hex_val (hex_digit (Z.land (byte_val c) 15)) = Some l /\
    byte_chr (h * 16 + l) = c.
Proof.
  destruct c as [[] [] [] [] [] [] [] []];
    eexists; eexists; (split; [reflexivity | split; reflexivity]).
Qed.

(** Decoding undoes encoding. *)
Lemma hexdecode_hexencode (s : string) : hexdecode (hexencode s) = Some s.
Proof.
  induction s as [|c s IH]; [reflexivity|].
  destruct (hex_char_roundtrip c) as (h & l & Hh & Hl & Hc).
  cbn [hexencode hexdecode]. now rewrite Hh, Hl, IH, Hc.
Qed.

Lemma hex_digit_no_colon c :
  Ascii.eqb (hex_digit (Z.shiftr (byte_val c) 4)) ":" = false /\
  Ascii.eqb (hex_digit (Z.land (byte_val c) 15)) ":" = false.
Proof.
  destruct c as [[] [] [] [] [] [] [] []]; split; reflexivity.
Qed.

Lemma hexencode_no_colon (s : string) : contains ":" (hexencode s) = false.
Proof.
  induction s as [|c s IH]; [reflexivity|].
  destruct (hex_digit_no_colon c) as [H1 H2].
  cbn [hexencode contains]. now rewrite H1, H2, IH.
Qed.

(** ** Cookies *)

(** The three fields of a cookie are recovered by [check_cookie]'s calls
    to [find] and [substr] when the first two hold no colon. *)
Lemma cookie_parse (ts hu hm : string) :
  contains ":" ts = false -> contains ":" hu = false ->
  let cookie := ts +:+ ":" +:+ hu +:+ ":" +:+ hm in
  let p1 := String.length ts in
  let p2 := (String.length ts + 1 + String.length hu)%nat in
  find ":" cookie 0 = Some p1 /\
  find ":" cookie (p1 + 1) = Some p2 /\
  substr 0 p1 cookie = ts /\
  substr (p1 + 1) (p2 - p1 - 1) cookie = hu /\
  substr_from (p2 + 1) cookie = hm /\
  substr 0 p2 cookie = ts +:+ ":" +:+ hu.
Proof.
  intros Hts Hhu cookie p1 p2. subst cookie p1 p2. unfold substr, substr_from.
  repeat split.
  - rewrite find_absent by assumption. simpl. f_equal. lia.
  - rewrite find_skip. simpl. rewrite find_absent by assumption.
    simpl. f_equal. lia.
  - apply substring_prefix.
  - rewrite substring_skip. simpl.
    replace (String.length ts + 1 + String.length hu - String.length ts - 1)%nat
      with (String.length hu) by lia.
    apply substring_prefix.
  - replace (ts +:+ ":" +:+ hu +:+ ":" +:+ hm)
      with ((ts +:+ ":" +:+ hu +:+ ":") +:+ hm)
      by (rewrite !append_assoc; reflexivity).
    rewrite (length_append _ hm).
    replace (String.length ts + 1 + String.length hu + 1)%nat
      with (String.length (ts +:+ ":" +:+ hu +:+ ":") + 0)%nat
      by (rewrite !length_append; simpl; lia).
    rewrite substring_skip.
    match goal with
    | |- substring 0 ?n hm = hm => replace n with (String.length hm) by lia
    end.
    apply substring_all.
  - replace (ts +:+ ":" +:+ hu +:+ ":" +:+ hm)
      with ((ts +:+ ":" +:+ hu) +:+ ":" +:+ hm)
      by (rewrite !append_assoc; reflexivity).
    replace (String.length ts + 1 + String.length hu)%nat
      with (String.length (ts +:+ ":" +:+ hu))
      by (rewrite !length_append; simpl; lia).
    apply substring_prefix.
Qed.

Lemma create_cookie_run (user : string) (w : world RateLimiter) :
  create_cookie user w =
  Some (let payload := to_string (now w) +:+ ":" +:+ hexencode user in
        payload +:+ ":" +:+ hexencode (hmac_sha1 cookie_secret payload),
        tick w).
Proof. reflexivity. Qed.

(** What [check_cookie] computes on a cookie given by its three fields. *)
Lemma check_cookie_fields (ts hu hm : string) (wcfg : web_t) (w : world RateLimiter) :
  contains ":" ts = false -> contains ":" hu = false ->
  check_cookie (ts +:+ ":" +:+ hu +:+ ":" +:+ hm) wcfg w =
  match hexdecode hu, hexdecode hm with
  | Some user, Some hmac =>
      match users wcfg !! user with
      | None => Some (false, w)
      | Some cred =>
          if u32 (now w) >? u64 (u64 (atol ts) + sduration cred)
          then Some (false, tick w)
          else Some (String.eqb hmac (hmac_sha1 cookie_secret (ts +:+ ":" +:+ hu)),
                     tick w)
      end
  | _, _ => Some (false, w)
  end.
Proof.
  intros Hts Hhu.
  destruct (cookie_parse ts hu hm Hts Hhu) as (H1 & H2 & H3 & H4 & H5 & H6).
  unfold check_cookie. rewrite H1, H2, H3, H4, H5, H6.
  destruct (hexdecode hu) as [user|]; [|reflexivity].
  destruct (hexdecode hm) as [hmac|]; [|reflexivity].
  destruct (users wcfg !! user) as [cred|]; [|reflexivity].
  run_handler. destruct (u32 (now w) >? u64 (u64 (atol ts) + sduration cred)); reflexivity.
Qed.

Lemma check_cookie_few_colons (cookie : string) (wcfg : web_t) (w : world RateLimiter) :
  (count_char ":" cookie < 2)%nat -> check_cookie cookie wcfg w = Some (false, w).
Proof.
  intros Hc. unfold check_cookie.
  destruct (find ":" cookie 0) as [p1|] eqn:E1; [|reflexivity].
  destruct (find ":" cookie (p1 + 1)) as [p2|] eqn:E2; [|reflexivity].
  pose proof (find_twice_count _ _ _ _ E1 E2). lia.
Qed.

Lemma strtol_digits_no_digit (s : string) (acc : Z) :
  starts_with_digit s = false -> strtol_digits s acc = acc.
Proof. destruct s as [|c s]; simpl; [reflexivity|]. now intros ->. Qed.

(** [atol] of a field that holds no number is 0. *)
Lemma atol_no_number (s : string) : no_number s = true -> atol s = 0.
Proof.
  unfold no_number, atol, strtol.
  destruct (skip_space s) as [|c r]; [reflexivity|].
  destruct c as [[] [] [] [] [] [] [] []]; intros H; apply negb_true_iff in H;
    rewrite strtol_digits_no_digit by exact H; reflexivity.
Qed.

(** What [check_cookie] answers to a cookie of [create_cookie], at any
    later reading of the clock: the current time enters the comparison
    modulo 2^32. *)
Lemma issued_cookie_check (wcfg : web_t) (u : string) (c : cred_t)
    (w1 w2 : world RateLimiter) :
  users wcfg !! u = Some c ->
  0 <= sduration c < 2^32 ->
  0 <= now w1 <= LONG_MAX ->
  exists cookie,
    create_cookie u w1 = Some (cookie, tick w1) /\
    check_cookie cookie wcfg w2 =
      Some (negb (u32 (now w2) >? now w1 + sduration c), tick w2).
Proof.
  intros Hu Hd Ht. eexists. split; [apply create_cookie_run|].
  cbv zeta. rewrite !append_assoc.
  rewrite check_cookie_fields
    by (apply to_string_no_colon || apply hexencode_no_colon).
  rewrite !hexdecode_hexencode, Hu.
  rewrite atol_to_string by (unfold LONG_MIN, LONG_MAX in *; lia).
  unfold u64, LONG_MAX in *.
  rewrite (Z.mod_small (now w1)) by lia.
  rewrite (Z.mod_small (now w1 + sduration c)) by lia.
  rewrite String.eqb_refl.
  now destruct (u32 (now w2) >? now w1 + sduration c).
Qed.

(** C1, as the code has it. A cookie that [create_cookie] issues for a
    configured user at a non-negative time is accepted by [check_cookie],
    under the same secret, at every current time up to the issue time plus
    the user's [sduration], and is rejected after that deadline as long as
    the current time is below 2^32. From 2^32 on the claim's second half
    fails: [check_cookie] compares [(unsigned)time(0)], so the cookie is
    accepted exactly when the current time modulo 2^32 is at most the
    deadline, however old it is. *)
Theorem cookie_round_trip (wcfg : web_t) (u : string) (c : cred_t)
    (w1 w2 : world RateLimiter) :
  users wcfg !! u = Some c ->
  0 <= sduration c < 2^32 ->
  0 <= now w1 <= LONG_MAX ->
  0 <= now w2 ->
  exists cookie,
    create_cookie u w1 = Some (cookie, tick w1) /\
    (now w2 <= now w1 + sduration c ->
     check_cookie cookie wcfg w2 = Some (true, tick w2)) /\
    (now w2 < 2^32 -> now w2 > now w1 + sduration c ->
     check_cookie cookie wcfg w2 = Some (false, tick w2)) /\
    check_cookie cookie wcfg w2 =
      Some (u32 (now w2) <=? now w1 + sduration c, tick w2).
Proof.
  intros Hu Hd Ht Hn.
  destruct (issued_cookie_check wcfg u c w1 w2 Hu Hd Ht) as (cookie & Hc & Hk).
  exists cookie. split; [exact Hc|]. rewrite Hk.
  assert (Hle : 0 <= u32 (now w2) <= now w2).
  { unfold u32. split; [apply Z.mod_pos_bound; lia | apply Z.mod_le; lia]. }
  split; [|split].
  - intros Hin.
    replace (u32 (now w2) >? now w1 + sduration c) with false
      by (symmetry; rewrite Z.gtb_ltb; apply Z.ltb_ge; lia).
    reflexivity.
  - intros Hsmall Hout. unfold u32. rewrite (Z.mod_small (now w2)) by lia.
    replace (now w2 >? now w1 + sduration c) with true
      by (symmetry; rewrite Z.gtb_ltb; apply Z.ltb_lt; lia).
    reflexivity.
  - f_equal. f_equal. rewrite Z.gtb_ltb, <- Z.leb_antisym. reflexivity.
Qed.

(** C6, where the code does what it says. [check_cookie] denies a cookie
    with fewer than two colons; a cookie whose decoded user name is not in
    the host's user map; and, when the timestamp [atol] reads is
    non-negative and the current time is below 2^32, a cookie whose
    timestamp plus the user's [sduration] lies before the current time.
    A first field at whose start [atol] finds no number reads as
    timestamp 0; the comparison the code then makes is
    [(unsigned)time(0) > sduration]. Outside these bounds the age check
    can fail to deny a cookie that is too old. *)
Theorem check_cookie_denies (wcfg : web_t) (w : world RateLimiter) :
  (forall cookie : string,
      (count_char ":" cookie < 2)%nat ->
      check_cookie cookie wcfg w = Some (false, w)) /\
  (forall (ts hu hm user : string),
      contains ":" ts = false -> contains ":" hu = false ->
      hexdecode hu = Some user -> users wcfg !! user = None ->
      check_cookie (ts +:+ ":" +:+ hu +:+ ":" +:+ hm) wcfg w = Some (false, w)) /\
  (forall (ts hu hm user : string) (cred : cred_t),
      contains ":" ts = false -> contains ":" hu = false ->
      hexdecode hu = Some user -> users wcfg !! user = Some cred ->
      0 <= sduration cred < 2^32 -> 0 <= atol ts -> 0 <= now w < 2^32 ->
      now w > atol ts + sduration cred ->
      fst <$> check_cookie (ts +:+ ":" +:+ hu +:+ ":" +:+ hm) wcfg w = Some false) /\
  (forall (ts hu hm user : string) (cred : cred_t),
      contains ":" ts = false -> contains ":" hu = false ->
      hexdecode hu = Some user -> users wcfg !! user = Some cred ->
      0 <= sduration cred < 2^32 ->
      no_number ts = true ->
      atol ts = 0 /\
      (u32 (now w) > sduration cred ->
       fst <$> check_cookie (ts +:+ ":" +:+ hu +:+ ":" +:+ hm) wcfg w = Some false)).
Proof.
  split; [|split; [|split]].
  - intros cookie Hc. now apply check_cookie_few_colons.
  - intros ts hu hm user Hts Hhu Hdec Hno.
    rewrite check_cookie_fields by assumption. rewrite Hdec, Hno.
    now destruct (hexdecode hm).
  - intros ts hu hm user cred Hts Hhu Hdec Hu Hd Ht Hn Hage.
    rewrite check_cookie_fields by assumption. rewrite Hdec, Hu.
    destruct (hexdecode hm); [|reflexivity].
    assert (Hl : atol ts <= LONG_MAX).
    { unfold atol, strtol.
      repeat match goal with
             | |- context [match ?x with _ => _ end] => destruct x
             end; unfold clamp_long, LONG_MAX, LONG_MIN; lia. }
    unfold u64, u32, LONG_MAX in *.
    rewrite (Z.mod_small (atol ts)) by lia.
    rewrite (Z.mod_small (atol ts + sduration cred)) by lia.
    rewrite (Z.mod_small (now w)) by lia.
    destruct (now w >? atol ts + sduration cred) eqn:E; [reflexivity|].
    rewrite Z.gtb_ltb in E. apply Z.ltb_ge in E. lia.
  - intros ts hu hm user cred Hts Hhu Hdec Hu Hd Hnum.
    pose proof (atol_no_number ts Hnum) as H0. split; [exact H0|].
    intros Hage.
    rewrite check_cookie_fields by assumption. rewrite Hdec, Hu, H0.
    destruct (hexdecode hm); [|reflexivity].
    unfold u64 in *. rewrite (Z.mod_small 0) by lia.
    rewrite (Z.mod_small (0 + sduration cred)) by lia.
    destruct (u32 (now w) >? 0 + sduration cred) eqn:E; [reflexivity|].
    rewrite Z.gtb_ltb in E. apply Z.ltb_ge in E. lia.
Qed.

(** ** TOTP *)

(** The HMAC functions return digests of 20, 32 and 64 bytes. *)
Hypothesis hmac_sha1_size : forall k m, String.length (hmac_sha1 k m) = 20%nat.
Hypothesis hmac_sha256_size : forall k m, String.length (hmac_sha256 k m) = 32%nat.
Hypothesis hmac_sha512_size : forall k m, String.length (hmac_sha512 k m) = 64%nat.

Lemma hmac_of_size algo k m : String.length (hmac_of algo k m) = digest_size algo.
Proof. destruct algo; simpl; auto. Qed.

Lemma algtbl_lookup algo : algtbl !! algo_index algo = Some (hmac_of algo).
Proof. now destruct algo. Qed.

Lemma get_in_range (s : string) (n : nat) :
  (n < String.length s)%nat -> exists c, String.get n s = Some c.
Proof.
  revert n. induction s as [|a s IH]; simpl; intros n Hn; [lia|].
  destruct n as [|n]; [now exists a | apply IH; lia].
Qed.

Lemma byte_at_range (h : string) (i : Z) : 0 <= byte_at h i < 256.
Proof.
  unfold byte_at. destruct (String.get (Z.to_nat i) h); [apply byte_val_range | lia].
Qed.

Lemma c_str_at_byte (h : string) (i : Z) :
  0 <= i < Z.of_nat (String.length h) -> c_str_at h i = Some (byte_at h i).
Proof.
  intros Hi. unfold c_str_at, byte_at.
  destruct (get_in_range h (Z.to_nat i)) as [c Hc]; [lia|].
  rewrite Hc.
  replace ((0 <=? i) && (i <? Z.of_nat (String.length h))) with true; [reflexivity|].
  symmetry. apply andb_true_iff. split; [apply Z.leb_le | apply Z.ltb_lt]; lia.
Qed.

Lemma hotp_offset_range (h : string) : 0 <= hotp_offset h < 16.
Proof.
  unfold hotp_offset. change 0x0F with (Z.ones 4).
  rewrite Z.land_ones by lia. apply Z.mod_pos_bound. lia.
Qed.

(** Masking the assembled word clears the same bit as masking its first
    byte. *)
Lemma totp_word_spec (h0 h1 h2 h3 : Z) :
  0 <= h0 < 256 -> 0 <= h1 < 256 -> 0 <= h2 < 256 -> 0 <= h3 < 256 ->
  totp_word h0 h1 h2 h3 =
  Z.lor (Z.lor (Z.lor (Z.shiftl (Z.land h0 0x7F) 24) (Z.shiftl h1 16))
               (Z.shiftl h2 8)) h3.
Proof.
  intros H0 H1 H2 H3. unfold totp_word, u32.
  rewrite <- (Z.mod_small h0 (2^8)), <- (Z.mod_small h1 (2^8)),
          <- (Z.mod_small h2 (2^8)), <- (Z.mod_small h3 (2^8)) by lia.
  change 0x7fffffff with (Z.ones 31). change 0x7F with (Z.ones 7).
  rewrite <- !Z.land_ones by lia.
  prove_Zeq_bitwise.
Qed.

Lemma po10_lookup (d : Z) : 6 <= d <= 9 -> po10 !! Z.to_nat (u8 d) = Some (10 ^ d).
Proof.
  intros Hd.
  assert (d = 6 \/ d = 7 \/ d = 8 \/ d = 9) as [-> | [-> | [-> | ->]]] by lia;
    reflexivity.
Qed.

(** [totp_calc] on a digest of at least 20 bytes: every read is inside the
    digest and the result is the spec's value modulo [10^digits]. *)
Lemma totp_calc_value (key : string) (algo : htAlgo) (d epoch : Z) :
  6 <= d <= 9 ->
  totp_calc key algo d epoch =
  Some (hotp_value_spec (hmac_of algo key (totp_msg (u32 epoch))) mod 10 ^ d).
Proof.
  intros Hd. unfold totp_calc. rewrite algtbl_lookup. run_handler.
  set (h := hmac_of algo key (totp_msg (u32 epoch))).
  assert (Hlen : 20 <= Z.of_nat (String.length h)).
  { unfold h. rewrite hmac_of_size. destruct algo; simpl; lia. }
  unfold u64. rewrite (Z.mod_small (Z.of_nat (String.length h) - 1)).
  2:{ assert (Z.of_nat (String.length h) <= 64)
        by (unfold h; rewrite hmac_of_size; destruct algo; simpl; lia).
      lia. }
  rewrite c_str_at_byte by lia. run_handler.
  fold (hotp_offset h). pose proof (hotp_offset_range h) as Hoff.
  rewrite !c_str_at_byte by lia. run_handler.
  rewrite po10_lookup by assumption. run_handler.
  rewrite totp_word_spec by apply byte_at_range.
  reflexivity.
Qed.

(** C2. For every digest [h], masking the assembled 32-bit word with
    [0x7FFFFFFF], as [totp_calc] does, gives the value of the spec's
    formula, which masks [h[offset]] with [0x7F] before the assembly; and
    for [digits] in 6..9 [totp_calc] returns that value modulo
    [10^digits]. *)
Theorem hotp_truncation_equivalence (key : string) (algo : htAlgo) (d epoch : Z) :
  6 <= d <= 9 ->
  (forall h : string,
      let off := hotp_offset h in
      totp_word (byte_at h off) (byte_at h (off + 1))
                (byte_at h (off + 2)) (byte_at h (off + 3)) =
      hotp_value_spec h) /\
  totp_calc key algo d epoch =
    Some (hotp_value_spec (hmac_of algo key (totp_msg (u32 epoch))) mod 10 ^ d).
Proof.
  intros Hd. split.
  - intros h off. rewrite totp_word_spec by apply byte_at_range. reflexivity.
  - now apply totp_calc_value.
Qed.

(** C10. For every key, algorithm, counter and [digits] in 6..9, each
    array access of [totp_calc] is in bounds: [po10[digits]] is one of the
    ten entries, [algtbl[algo]] one of the three, [hash[size - 1]] is the
    last byte of the digest, and [hash[off]] .. [hash[off + 3]] lie inside
    the digest because [off + 3 <= 18 < 20 <= size]; so [totp_calc]
    returns a value. *)
Theorem totp_calc_index_safety (key : string) (algo : htAlgo) (d epoch : Z) :
  6 <= d <= 9 ->
  let h := hmac_of algo key (totp_msg (u32 epoch)) in
  let size := Z.of_nat (String.length h) in
  let off := hotp_offset h in
  (Z.to_nat (u8 d) < length po10)%nat /\ length po10 = 10%nat /\
  (algo_index algo < length algtbl)%nat /\
  0 <= size - 1 < size /\
  0 <= off /\ off + 3 <= 18 /\ 18 < 20 /\ 20 <= size /\
  (forall i, off <= i <= off + 3 -> c_str_at h i = Some (byte_at h i)) /\
  exists v, totp_calc key algo d epoch = Some v.
Proof.
  intros Hd h size off.
  assert (Hlen : 20 <= size).
  { unfold size, h. rewrite hmac_of_size. destruct algo; simpl; lia. }
  pose proof (hotp_offset_range h) as Hoff. fold off in Hoff.
  repeat split; try lia.
  - unfold u8. rewrite Z.mod_small by lia. simpl. lia.
  - destruct algo; simpl; lia.
  - intros i Hi. apply c_str_at_byte. fold size. lia.
  - eexists. now apply totp_calc_value.
Qed.

Lemma totp_calc_u32 (key : string) (algo : htAlgo) (d e : Z) :
  totp_calc key algo d (u32 e) = totp_calc key algo d e.
Proof.
  unfold totp_calc, u32. now rewrite Z.mod_mod by lia.
Qed.

(** The loop of [totp_valid] finds a match exactly when one of the
    counters it visits gives the code. *)
Lemma totp_scan_spec (user : cred_t) (input ct : Z) (n : nat) : forall i : Z,
  6 <= digits user <= 9 ->
  i + Z.of_nat n <= INT_MAX ->
  exists b,
    totp_scan user input ct n i = Some b /\
    (b = true <->
     exists j, i <= j < i + Z.of_nat n /\
       totp_calc (totp user) (algorithm user) (digits user) (u32 (ct + j)) = Some input).
Proof.
  induction n as [|n IH]; intros i Hd Hi.
  - exists false. split; [reflexivity|]. split; [discriminate|].
    intros (j & Hj & _). lia.
  - cbn [totp_scan].
    pose proof (totp_calc_value (totp user) (algorithm user) (digits user)
                  (u32 (ct + i)) Hd) as Hv.
    rewrite Hv. run_handler.
    destruct (Z.eqb_spec
      (hotp_value_spec (hmac_of (algorithm user) (totp user)
         (totp_msg (u32 (u32 (ct + i))))) mod 10 ^ digits user) input) as [Heq | Hne].
    + exists true. split; [reflexivity|]. split; [|reflexivity].
      intros _. exists i. split; [lia|]. rewrite Hv. now f_equal.
    + replace (i =? INT_MAX) with false by (symmetry; apply Z.eqb_neq; lia).
      destruct (IH (i + 1) Hd) as (b & Hb & Hiff); [lia|].
      exists b. split; [exact Hb|]. rewrite Hiff. split.
      * intros (j & Hj & Hc). exists j. split; [lia | exact Hc].
      * intros (j & Hj & Hc).
        destruct (Z.eq_dec j i) as [-> | Hji].
        -- rewrite Hv in Hc. injection Hc as Hc. contradiction.
        -- exists j. split; [lia | exact Hc].
Qed.

(** A window of more than 2^31 is negative as an [int]: the loop does not
    run and every code is rejected. *)
Lemma totp_valid_negative_window (u : cred_t) (c W : Z) (w : world RateLimiter) :
  period u <> 0 ->
  2^31 < W < 2^32 ->
  totp_valid u c W w = Some (false, tick w).
Proof.
  intros Hp HW. unfold totp_valid. run_handler.
  replace (period u =? 0) with false by (symmetry; now apply Z.eqb_neq).
  assert (Hg : s32 W = W - 2^32).
  { unfold s32, u32. rewrite Z.mod_small by lia.
    replace (W <? 2 ^ 31) with false by (symmetry; apply Z.ltb_ge; lia).
    reflexivity. }
  rewrite Hg.
  replace (W - 2 ^ 32 =? INT_MIN) with false
    by (symmetry; apply Z.eqb_neq; unfold INT_MIN; lia).
  replace (Z.to_nat (W - 2 ^ 32 - - (W - 2 ^ 32) + 1)) with 0%nat by lia.
  reflexivity.
Qed.

(** C3, where the code does what it says. For a credential that
    satisfies the invariants of the data model, a non-negative current
    time and a window [W <= 2^31 - 2], [totp_valid] returns true exactly
    when some [i] in [-W, W] makes the HOTP value at counter
    [floor(now / period) + i] equal to the code. A window above that is
    not an [int]: the loop bounds [-(signed)generations] and
    [(signed)generations] are then no longer [-W] and [W]. *)
Theorem totp_valid_window (u : cred_t) (c W : Z) (w : world RateLimiter) :
  cred_ok u ->
  0 <= now w ->
  0 <= W <= INT_MAX - 1 ->
  exists b,
    totp_valid u c W w = Some (b, tick w) /\
    (b = true <->
     exists i, - W <= i <= W /\
       totp_calc (totp u) (algorithm u) (digits u) (now w / period u + i) = Some c).
Proof.
  intros (Hs & Hd & Hp) Hn HW. unfold INT_MAX in HW.
  unfold totp_valid. run_handler.
  replace (period u =? 0) with false by (symmetry; apply Z.eqb_neq; lia).
  assert (Hg : s32 W = W).
  { unfold s32, u32. rewrite Z.mod_small by lia.
    replace (W <? 2 ^ 31) with true by (symmetry; apply Z.ltb_lt; lia).
    reflexivity. }
  rewrite Hg.
  replace (W =? INT_MIN) with false
    by (symmetry; apply Z.eqb_neq; unfold INT_MIN; lia).
  destruct (totp_scan_spec u c (u32 (Z.quot (now w) (period u)))
              (Z.to_nat (W - - W + 1)) (- W) Hd) as (b & Hb & Hiff).
  { unfold INT_MAX. lia. }
  exists b. unfold lift. rewrite Hb. split; [reflexivity|].
  rewrite Hiff. rewrite Z.quot_div_nonneg by lia.
  assert (Hc : forall j,
    totp_calc (totp u) (algorithm u) (digits u)
      (u32 (u32 (now w / period u) + j)) =
    totp_calc (totp u) (algorithm u) (digits u) (now w / period u + j)).
  { intros j. rewrite totp_calc_u32. rewrite <- (totp_calc_u32 _ _ _ (_ + j)).
    rewrite <- (totp_calc_u32 _ _ _ (now w / period u + j)).
    f_equal. unfold u32. now rewrite Z.add_mod_idemp_l by lia. }
  split; intros (j & Hj & Hcalc); exists j; (split; [lia|]).
  - now rewrite <- Hc.
  - now rewrite Hc.
Qed.

(** ** The request handler *)

Lemma check_cookie_total (cookie : string) (wcfg : web_t) (w : world RateLimiter) :
  exists authed w1, check_cookie cookie wcfg w = Some (authed, w1).
Proof.
  unfold check_cookie.
  repeat match goal with
         | |- context [match ?x with _ => _ end] => destruct x
         end;
    run_handler;
    repeat match goal with
           | |- context [if ?x then _ else _] => destruct x
           end; eauto.
Qed.

Lemma check_cookie_undecodable (cookie : string) (wcfg : web_t) (w : world RateLimiter) :
  undecodable_cookie cookie -> check_cookie cookie wcfg w = Some (false, w).
Proof.
  intros [Hc | (ts & hu & hm & -> & Hts & Hhu & Hdec)].
  - now apply check_cookie_few_colons.
  - rewrite check_cookie_fields by assumption.
    destruct Hdec as [-> | ->]; [reflexivity | now destruct (hexdecode hu)].
Qed.

(** C4 (as amended). On the URI [/auth] the handler answers 200 with the
    body [Authentication Succeeded] when [check_cookie] accepts the value
    of the cookie [authentication-token], and 401 with the body
    [Authentication Denied] otherwise. A request without that cookie gets
    the 401, and so does one whose cookie has fewer than two colons or a
    user or HMAC field that is no hex string. *)
Theorem auth_dispatch (req : web_req) (wcfg : web_t) (w : world RateLimiter) :
  uri req = "/auth" ->
  (forall cookie : string,
      cookies req !! "authentication-token" = Some cookie ->
      exists (authed : bool) (w1 : world RateLimiter) (resp : string) (r : response),
        check_cookie cookie wcfg w = Some (authed, w1) /\
        process_req req wcfg w =
          Some (resp, add_log (if authed then "Requested authentication succeeded"
                               else "Requested authentication denied") w1) /\
        parse_response resp = Some r /\
        (authed = true -> status r = 200 /\ body r = "Authentication Succeeded") /\
        (authed = false -> status r = 401 /\ body r = "Authentication Denied") /\
        (undecodable_cookie cookie -> authed = false)) /\
  (cookies req !! "authentication-token" = None ->
   exists (resp : string) (r : response),
     process_req req wcfg w =
       Some (resp, add_log "Requested authentication denied" w) /\
     parse_response resp = Some r /\
     status r = 401 /\ body r = "Authentication Denied").
Proof.
  intros Huri. unfold process_req. rewrite Huri.
  change (String.eqb "/auth" "/auth") with true. cbv iota.
  unfold strmap_get. split.
  - intros cookie Hc. rewrite Hc. cbn [from_option id].
    destruct (check_cookie_total cookie wcfg w) as (authed & w1 & Hck).
    exists authed, w1. run_handler. rewrite Hck.
    destruct authed.
    + eexists. eexists. split; [reflexivity|]. split; [reflexivity|].
      split; [reflexivity|]. repeat split; try discriminate.
      intros Hm. rewrite check_cookie_undecodable in Hck by exact Hm. discriminate.
    + eexists. eexists. split; [reflexivity|]. split; [reflexivity|].
      split; [reflexivity|]. repeat split; try discriminate.
  - intros Hnone. rewrite Hnone. cbn [from_option id]. run_handler.
    rewrite check_cookie_few_colons by (simpl; lia).
    eexists. eexists. split; [reflexivity|]. repeat split.
Qed.

Lemma totp_valid_limiter (u : cred_t) (c W : Z) (w w' : world RateLimiter) (b : bool) :
  totp_valid u c W w = Some (b, w') -> limiter w' = limiter w.
Proof.
  unfold totp_valid. run_handler.
  destruct (period u =? 0); [discriminate|].
  destruct (s32 W =? INT_MIN); [discriminate|].
  unfold lift. destruct totp_scan; [|discriminate].
  intros [= _ <-]. reflexivity.
Qed.

Lemma login_form_limiter (req : web_req) (wcfg : web_t) (rpage resp : string)
    (w w' : world RateLimiter) :
  login_form req wcfg rpage w = Some (resp, w') -> limiter w' = limiter w.
Proof.
  unfold login_form. destruct (String.eqb (method req) "POST").
  - run_handler. unfold credentials_ok.
    destruct (users wcfg !! _) as [cred|].
    + destruct (String.eqb (password cred) _).
      * destruct (totp_valid cred _ _ w) as [[[] w2]|] eqn:E; [| |discriminate];
          apply totp_valid_limiter in E; run_handler; intros [= _ <-]; exact E.
      * run_handler. intros [= _ <-]. reflexivity.
    + run_handler. intros [= _ <-]. reflexivity.
  - run_handler. intros [= _ <-]. reflexivity.
Qed.

(** The [/login] branch up to the login form. *)
Lemma process_req_login (req : web_req) (wcfg : web_t) (w : world RateLimiter)
    (denied : bool) (rl : RateLimiter) :
  uri req = "/login" ->
  rl_check (ip64 req) (limiter w) = (denied, rl) ->
  process_req req wcfg w =
    if denied
    then Some ("Status: 429" +:+ CRLF +:+ "Content-Type: text/plain" +:+ CRLF +:+
               "Content-Length: 34" +:+ CRLF +:+ CRLF +:+
               "Too many requests, request blocked",
               add_log ("Rate limit hit for ip id " +:+ to_string (ip64 req))
                       (set_limiter rl w))
    else login_form req wcfg (follow_page req)
                    (set_limiter (rl_consume (ip64 req) rl) w).
Proof.
  intros Huri Hck. unfold process_req. rewrite Huri.
  change (String.eqb "/login" "/auth") with false.
  change (String.eqb "/login" "/login") with true. cbv iota.
  run_handler. unfold check at 1. rewrite Hck.
  destruct denied; reflexivity.
Qed.

(** C7. On the URI [/login], when the rate limiter reports the client key
    denied the handler answers 429 with the body
    [Too many requests, request blocked]; no credential is looked at and
    the limiter is left as [check] left it. Otherwise the handler calls
    [consume] once for that key and goes on to the login form, which
    leaves the limiter alone. *)
Theorem login_rate_limit (req : web_req) (wcfg : web_t) (w : world RateLimiter)
    (denied : bool) (rl : RateLimiter) :
  uri req = "/login" ->
  rl_check (ip64 req) (limiter w) = (denied, rl) ->
  (denied = true ->
   exists resp r,
     process_req req wcfg w =
       Some (resp, add_log ("Rate limit hit for ip id " +:+ to_string (ip64 req))
                           (set_limiter rl w)) /\
     parse_response resp = Some r /\
     status r = 429 /\ body r = "Too many requests, request blocked") /\
  (denied = false ->
   process_req req wcfg w =
     login_form req wcfg (follow_page req)
                (set_limiter (rl_consume (ip64 req) rl) w) /\
   forall resp w', process_req req wcfg w = Some (resp, w') ->
                   limiter w' = rl_consume (ip64 req) rl).
Proof.
  intros Huri Hck.
  pose proof (process_req_login req wcfg w denied rl Huri Hck) as Hreq.
  split; intros ->.
  - eexists. eexists. split; [exact Hreq|]. repeat split; reflexivity.
  - split; [exact Hreq|]. intros resp w' Hrun. rewrite Hreq in Hrun.
    apply login_form_limiter in Hrun. exact Hrun.
Qed.

Lemma stripnl_clean (s : string) :
  contains CR (stripnl s) = false /\ contains LF (stripnl s) = false.
Proof.
  induction s as [|c s [IH1 IH2]]; [split; reflexivity|].
  cbn [stripnl].
  destruct (Ascii.eqb c CR) eqn:E1, (Ascii.eqb c LF) eqn:E2; cbn [orb contains];
    rewrite ?E1, ?E2, ?IH1, ?IH2; split; reflexivity.
Qed.

(** C5. A POST to [/login] that the rate limiter lets through, with a
    user name of the host, exactly its password and a code that
    [totp_valid] accepts with the window [totp_generations], is answered
    by a 302 whose [Set-Cookie] carries the cookie [create_cookie] issues
    then, [time:hex(user):hex(hmac_sha1(secret, time:hex(user)))] with
    the time of issue, and whose [Location] is the follow page without
    its CR and LF characters. Every other such POST (unknown user, other
    password, rejected code) sets the error flag and renders the login
    page. *)
Theorem login_success (req : web_req) (wcfg : web_t) (w : world RateLimiter)
    (rl : RateLimiter) :
  uri req = "/login" ->
  method req = "POST" ->
  rl_check (ip64 req) (limiter w) = (false, rl) ->
  let w1 := set_limiter (rl_consume (ip64 req) rl) w in
  let user := default "" (postvars req !! "username") in
  let pass := default "" (postvars req !! "password") in
  let code := u32 (atoi (default "" (postvars req !! "totp"))) in
  let rpage := follow_page req in
  (forall cred w2,
      users wcfg !! user = Some cred ->
      password cred = pass ->
      totp_valid cred code (totp_generations wcfg) w1 = Some (true, w2) ->
      let w3 := add_log ("Login successful for user " +:+ user) w2 in
      let payload := to_string (now w3) +:+ ":" +:+ hexencode user in
      let token := payload +:+ ":" +:+ hexencode (hmac_sha1 cookie_secret payload) in
      create_cookie user w3 = Some (token, tick w3) /\
      process_req req wcfg w =
        Some ("Status: 302" +:+ CRLF +:+ "Set-Cookie: authentication-token=" +:+
              token +:+ CRLF +:+ "Location: " +:+ stripnl rpage +:+ CRLF +:+ CRLF,
              tick w3) /\
      contains CR (stripnl rpage) = false /\
      contains LF (stripnl rpage) = false) /\
  (users wcfg !! user = None \/
   (exists cred, users wcfg !! user = Some cred /\ password cred <> pass) ->
   process_req req wcfg w =
     Some (login_page req wcfg rpage true,
           add_log ("Failed login for user " +:+ user) w1)) /\
  (forall cred w2,
      users wcfg !! user = Some cred ->
      password cred = pass ->
      totp_valid cred code (totp_generations wcfg) w1 = Some (false, w2) ->
      process_req req wcfg w =
        Some (login_page req wcfg rpage true,
              add_log ("Failed login for user " +:+ user) w2)) /\
  (forall render,
      templates !! webtemplate wcfg = Some render ->
      let page := render (host req) rpage true in
      login_page req wcfg rpage true =
        "Status: 200" +:+ CRLF +:+ "Content-Type: text/html" +:+ CRLF +:+
        "Content-Length: " +:+ to_string (Z.of_nat (String.length page)) +:+
        CRLF +:+ CRLF +:+ page).
Proof.
  intros Huri Hpost Hck w1 user pass code rpage.
  pose proof (process_req_login req wcfg w false rl Huri Hck) as Hreq.
  cbv iota in Hreq. fold w1 rpage in Hreq. rewrite Hreq.
  unfold login_form. rewrite Hpost.
  change (String.eqb "POST" "POST") with true. cbv iota.
  unfold strmap_get. fold user pass code. run_handler. unfold credentials_ok.
  split; [|split; [|split]].
  - intros cred w2 Hu Hpw Htotp. rewrite Hu.
    replace (String.eqb (password cred) pass) with true
      by (symmetry; now apply String.eqb_eq).
    rewrite Htotp.
    split; [apply create_cookie_run|].
    split; [reflexivity | apply stripnl_clean].
  - intros [Hnone | (cred & Hu & Hpw)].
    + rewrite Hnone. reflexivity.
    + rewrite Hu.
      replace (String.eqb (password cred) pass) with false
        by (symmetry; now apply String.eqb_neq).
      reflexivity.
  - intros cred w2 Hu Hpw Htotp. rewrite Hu.
    replace (String.eqb (password cred) pass) with true
      by (symmetry; now apply String.eqb_eq).
    rewrite Htotp. reflexivity.
  - intros render Ht. unfold login_page. rewrite Ht. reflexivity.
Qed.

(** What the handler returns for a URI it does not know. *)
Lemma process_req_unknown (req : web_req) (wcfg : web_t) (w : world RateLimiter) :
  uri req <> "/auth" -> uri req <> "/login" -> uri req <> "/logout" ->
  process_req req wcfg w =
    Some ("Status: 404" +:+ CRLF +:+ "Content-Type: text/plain" +:+ CRLF +:+
          "Content-Length: 48" +:+ CRLF +:+
          "Not found, valid endpoints: /auth /login /logout" +:+ CRLF +:+ CRLF,
          add_log ("Unknown request for URL: " +:+ uri req) w).
Proof.
  intros H1 H2 H3. unfold process_req.
  apply String.eqb_neq in H1, H2, H3. rewrite H1, H2, H3. reflexivity.
Qed.

(** C8, as the code has it. For every request whose URI is none of
    [/auth], [/login], [/logout] the handler answers with status 404 and
    the headers [Content-Type] and [Content-Length: 48], but the text
    [Not found, valid endpoints: /auth /login /logout] stands in the header
    block, before the blank line: the body is empty, not the 48 bytes that
    [Content-Length] announces. *)
Theorem unknown_uri_response (req : web_req) (wcfg : web_t) (w : world RateLimiter) :
  uri req <> "/auth" -> uri req <> "/login" -> uri req <> "/logout" ->
  exists (resp : string) (r : response),
    fst <$> process_req req wcfg w = Some resp /\
    parse_response resp = Some r /\
    status r = 404 /\
    header "Content-Type" (headers r) = Some "text/plain" /\
    header "Content-Length" (headers r) = Some "48" /\
    header "Not found, valid endpoints" (headers r) = Some "/auth /login /logout" /\
    body r = "" /\
    String.length "Not found, valid endpoints: /auth /login /logout" = 48%nat.
Proof.
  intros H1 H2 H3. rewrite process_req_unknown by assumption.
  eexists. eexists. split; [reflexivity|]. split; [reflexivity|].
  repeat split.
Qed.

(** ** The client key *)

Lemma lor_add (x y k : Z) :
  0 <= k -> 0 <= y < 2 ^ k -> Z.lor (x * 2 ^ k) y = x * 2 ^ k + y.
Proof.
  intros Hk Hy.
  assert (Hland : Z.land (x * 2 ^ k) y = 0).
  { rewrite <- Z.shiftl_mul_pow2 by lia.
    rewrite <- (Z.mod_small y (2 ^ k)) by lia.
    apply Z.bits_inj'. intros n Hn.
    rewrite Z.land_spec, Z.bits_0.
    destruct (Z_lt_le_dec n k).
    - rewrite Z.shiftl_spec_low by lia. reflexivity.
    - rewrite Z.mod_pow2_bits_high by lia. apply andb_false_r. }
  rewrite Z.add_nocarry_lxor by exact Hland.
  symmetry. now apply Z.lxor_lor.
Qed.

(** The six bytes, one after the other, as a number. *)
Lemma ip6_key_sum (b0 b1 b2 b3 b4 b5 : Z) :
  0 <= b0 < 256 -> 0 <= b1 < 256 -> 0 <= b2 < 256 ->
  0 <= b3 < 256 -> 0 <= b4 < 256 -> 0 <= b5 < 256 ->
  u64 (Z.lor (Z.lor (Z.lor (Z.lor (Z.lor
    (Z.shiftl b0 40) (Z.shiftl b1 32)) (Z.shiftl b2 24)) (Z.shiftl b3 16))
    (Z.shiftl b4 8)) b5) =
  b0 * 2^40 + b1 * 2^32 + b2 * 2^24 + b3 * 2^16 + b4 * 2^8 + b5.
Proof.
  intros R0 R1 R2 R3 R4 R5.
  rewrite !Z.shiftl_mul_pow2 by lia.
  rewrite (lor_add b0 (b1 * 2 ^ 32) 40) by lia.
  replace (b0 * 2 ^ 40 + b1 * 2 ^ 32)
    with ((b0 * 2 ^ 8 + b1) * 2 ^ 32) by lia.
  rewrite (lor_add _ (b2 * 2 ^ 24) 32) by lia.
  replace ((b0 * 2 ^ 8 + b1) * 2 ^ 32 + b2 * 2 ^ 24)
    with ((b0 * 2 ^ 16 + b1 * 2 ^ 8 + b2) * 2 ^ 24) by lia.
  rewrite (lor_add _ (b3 * 2 ^ 16) 24) by lia.
  replace ((b0 * 2 ^ 16 + b1 * 2 ^ 8 + b2) * 2 ^ 24 + b3 * 2 ^ 16)
    with ((b0 * 2 ^ 24 + b1 * 2 ^ 16 + b2 * 2 ^ 8 + b3) * 2 ^ 16) by lia.
  rewrite (lor_add _ (b4 * 2 ^ 8) 16) by lia.
  replace ((b0 * 2 ^ 24 + b1 * 2 ^ 16 + b2 * 2 ^ 8 + b3) * 2 ^ 16 + b4 * 2 ^ 8)
    with ((b0 * 2 ^ 32 + b1 * 2 ^ 24 + b2 * 2 ^ 16 + b3 * 2 ^ 8 + b4) * 2 ^ 8)
    by lia.
  rewrite (lor_add _ b5 8) by lia.
  unfold u64. rewrite Z.mod_small by lia. lia.
Qed.

(** C9 (as amended). When [REMOTE_ADDR] parses as IPv6, the key holds the
    first six bytes of the address in its lower 48 bits, byte 0 at bits
    40..47 down to byte 5 at bits 0..7, and bits 48..63 are zero. When it
    only parses as IPv4 the key is [s_addr], the 32-bit address in
    network byte order. Otherwise the key is 0. *)
Theorem client_key (remote_addr : option string) :
  let sip := default "0.0.0.0" remote_addr in
  let key := work_ip64 remote_addr in
  (forall a, inet_pton6 sip = Some a ->
     0 <= key < 2^48 /\
     forall i, (i < 6)%nat ->
       Z.land (Z.shiftr key (40 - 8 * Z.of_nat i)) 255 = byte_val (s6_addr a i)) /\
  (forall a, inet_pton6 sip = None -> inet_pton4 sip = Some a ->
     key = u32 (s_addr a) /\ 0 <= key < 2^32) /\
  (inet_pton6 sip = None -> inet_pton4 sip = None -> key = 0).
Proof.
  intros sip key. unfold key, work_ip64. fold sip.
  split; [|split].
  - intros a Ha. rewrite Ha. cbv zeta.
    pose proof (byte_val_range (s6_addr a 0)) as R0.
    pose proof (byte_val_range (s6_addr a 1)) as R1.
    pose proof (byte_val_range (s6_addr a 2)) as R2.
    pose proof (byte_val_range (s6_addr a 3)) as R3.
    pose proof (byte_val_range (s6_addr a 4)) as R4.
    pose proof (byte_val_range (s6_addr a 5)) as R5.
    rewrite ip6_key_sum by assumption.
    split; [lia|].
    intros i Hi. change 255 with (Z.ones 8).
    rewrite Z.land_ones, Z.shiftr_div_pow2 by lia.
    destruct i as [|[|[|[|[|[|i]]]]]]; [| | | | | |lia];
      match goal with
      | |- context [2 ^ (?a - ?b * Z.of_nat ?n)] =>
          let e := eval vm_compute in (a - b * Z.of_nat n) in
          change (a - b * Z.of_nat n) with e
      end;
      match goal with
      | |- (?k / ?d) mod ?m = _ =>
          pose proof (Z.div_mod k d); pose proof (Z.mod_pos_bound k d);
          pose proof (Z.div_mod (k / d) m); pose proof (Z.mod_pos_bound (k / d) m)
      end; lia.
  - intros a H6 H4. rewrite H6, H4. split; [reflexivity|].
    unfold u32. apply Z.mod_pos_bound. lia.
  - intros H6 H4. now rewrite H6, H4.
Qed.

(** * Further properties of the server *)

(** ** Writing and reading a CGI response *)

Lemma append_empty_r (a : string) : a +:+ EmptyString = a.
Proof. induction a as [|x a IH]; simpl; [reflexivity | now rewrite IH]. Qed.

Lemma prefix_head (c x : ascii) (sep' s : string) :
  Ascii.eqb x c = false -> String.prefix (String c sep') (String x s) = false.
Proof.
  intros H. simpl. destruct (ascii_dec c x) as [->|]; [|reflexivity].
  now rewrite Ascii.eqb_refl in H.
Qed.

Lemma split_at_step (sep : string) (x : ascii) (s : string) :
  String.prefix sep (String x s) = false ->
  split_at sep (String x s) =
  match split_at sep s with
  | Some (l, r) => Some (String x l, r)
  | None => None
  end.
Proof. intros H. cbn [split_at]. now rewrite H. Qed.

Lemma split_at_skip (c : ascii) (sep' a rest : string) :
  contains c a = false ->
  split_at (String c sep') (a +:+ rest) =
  match split_at (String c sep') rest with
  | Some (l, r) => Some (a +:+ l, r)
  | None => None
  end.
Proof.
  induction a as [|x a IH]; intros Hc.
  - simpl. now destruct (split_at (String c sep') rest) as [[l r]|].
  - simpl in Hc. apply orb_false_iff in Hc as [Hx Ha].
    change (String x a +:+ rest) with (String x (a +:+ rest)).
    rewrite split_at_step by now apply prefix_head.
    rewrite (IH Ha). now destruct (split_at (String c sep') rest) as [[l r]|].
Qed.

Lemma split_at_found (sep rest : string) :
  split_at sep (sep +:+ rest) = Some (EmptyString, rest).
Proof.
  assert (Hp : String.prefix sep (sep +:+ rest) = true).
  { apply prefix_correct. apply substring_prefix. }
  assert (Hr : substr_from (String.length sep) (sep +:+ rest) = rest).
  { unfold substr_from. rewrite length_append.
    replace (String.length sep) with (String.length sep + 0)%nat at 1 by lia.
    rewrite substring_skip.
    replace (String.length sep + String.length rest - String.length sep)%nat
      with (String.length rest) by lia.
    apply substring_all. }
  destruct sep as [|c sep']; destruct rest as [|y rest];
    cbn [split_at String.append] in *; rewrite ?Hp, ?Hr; reflexivity.
Qed.

Lemma split_at_absent (c : ascii) (sep' s : string) :
  contains c s = false -> split_at (String c sep') s = None.
Proof.
  induction s as [|x s IH]; intros Hc; [reflexivity|].
  simpl in Hc. apply orb_false_iff in Hc as [Hx Hs].
  rewrite split_at_step by now apply prefix_head. now rewrite (IH Hs).
Qed.

(** A name and a value come back from the line that holds them. *)
Lemma header_of_header_line (n v : string) :
  contains ":" n = false -> header_of_line (header_line (n, v)) = Some (n, v).
Proof.
  intros Hn. unfold header_of_line, header_line. cbn [fst snd].
  rewrite (split_at_skip ":" " " n (": " +:+ v)) by exact Hn.
  rewrite (split_at_found ": " v). now rewrite append_empty_r.
Qed.

Lemma join_cons (l l2 : string) (ls : list string) :
  join CRLF (l :: l2 :: ls) = l +:+ CRLF +:+ join CRLF (l2 :: ls).
Proof. reflexivity. Qed.

Lemma join_head (x : ascii) (l : string) (ls : list string) (rest : string) :
  exists t, join CRLF (String x l :: ls) +:+ rest = String x t.
Proof. destruct ls; simpl; eauto. Qed.

Lemma split_blank_join (lines : list string) (body : string) :
  lines <> [] ->
  Forall (fun l => contains CR l = false /\ l <> EmptyString) lines ->
  split_at (CRLF +:+ CRLF) (join CRLF lines +:+ CRLF +:+ CRLF +:+ body) =
  Some (join CRLF lines, body).
Proof.
  induction lines as [|l ls IH]; [congruence|]. intros _ Hall.
  apply Forall_cons_1 in Hall as [[Hl _] Hls].
  destruct ls as [|l2 ls].
  - cbn [join].
    change (CRLF +:+ CRLF +:+ body) with ((CRLF +:+ CRLF) +:+ body).
    change (CRLF +:+ CRLF) with (String CR (String LF CRLF)).
    rewrite split_at_skip by exact Hl.
    rewrite split_at_found. now rewrite append_empty_r.
  - rewrite join_cons, !append_assoc.
    change (CRLF +:+ CRLF) with (String CR (String LF CRLF)) at 1.
    rewrite split_at_skip by exact Hl.
    pose proof Hls as Hls'. apply Forall_cons_1 in Hls' as [[Hl2 Hne] _].
    destruct l2 as [|x l2]; [congruence|].
    destruct (join_head x l2 ls (CRLF +:+ CRLF +:+ body)) as [t Ht].
    specialize (IH ltac:(discriminate) Hls).
    change (String CR (String LF CRLF)) with (CRLF +:+ CRLF).
    rewrite Ht in *.
    assert (Hx : Ascii.eqb x CR = false) by (simpl in Hl2; now apply orb_false_iff in Hl2).
    change (CRLF +:+ String x t) with (String CR (String LF (String x t))).
    rewrite split_at_step.
    2:{ change (CRLF +:+ CRLF) with (String CR (String LF (String CR (String LF EmptyString)))).
        cbn [String.prefix]. destruct (ascii_dec CR CR); [|congruence].
        destruct (ascii_dec LF LF); [|congruence].
        destruct (ascii_dec CR x) as [<-|]; [|reflexivity]. discriminate Hx. }
    rewrite split_at_step by reflexivity.
    rewrite IH. reflexivity.
Qed.

Lemma split_lines_join (lines : list string) : forall fuel : nat,
  lines <> [] ->
  Forall (fun l => contains CR l = false) lines ->
  (length lines <= S fuel)%nat ->
  split_lines fuel (join CRLF lines) = lines.
Proof.
  induction lines as [|l ls IH]; [congruence|]. intros fuel _ Hall Hlen.
  apply Forall_cons_1 in Hall as [Hl Hls].
  destruct ls as [|l2 ls].
  - cbn [join]. destruct fuel; [reflexivity|]. cbn [split_lines].
    change CRLF with (String CR (String LF EmptyString)).
    now rewrite split_at_absent.
  - rewrite join_cons. destruct fuel as [|fuel]; [simpl in Hlen; lia|].
    cbn [split_lines].
    change CRLF with (String CR (String LF EmptyString)) at 1.
    rewrite split_at_skip by exact Hl.
    change (String CR (String LF EmptyString)) with CRLF.
    rewrite split_at_found, append_empty_r.
    rewrite IH; [reflexivity | discriminate | exact Hls | simpl in *; lia].
Qed.

Lemma length_join (lines : list string) :
  Forall (fun l => l <> EmptyString) lines ->
  (length lines <= String.length (join CRLF lines))%nat.
Proof.
  induction lines as [|l ls IH]; intros Hall; [simpl; lia|].
  apply Forall_cons_1 in Hall as [Hl Hls]. specialize (IH Hls).
  destruct l as [|x l]; [congruence|].
  destruct ls as [|l2 ls]; [simpl; lia|].
  rewrite join_cons, !length_append. simpl in *. lia.
Qed.

Lemma omap_header_lines (hs : list (string * string)) :
  Forall (fun h => contains ":" (fst h) = false) hs ->
  omap header_of_line (map header_line hs) = hs.
Proof.
  induction hs as [|[n v] hs IH]; intros Hall; [reflexivity|].
  apply Forall_cons_1 in Hall as [Hn Hhs]. specialize (IH Hhs).
  unfold omap in *. cbn [map list_omap].
  rewrite header_of_header_line by exact Hn. now rewrite IH.
Qed.

(** Reading gives back what was written: the status, the headers and the
    body of a response text, when no status, name or value holds a CR and
    no name holds a colon. *)
Lemma parse_cgi_text (code : string) (hs : list (string * string)) (body : string) :
  contains CR code = false ->
  Forall (fun h => contains CR (fst h) = false /\ contains ":" (fst h) = false /\
                   contains CR (snd h) = false) hs ->
  parse_response (cgi_text code hs body) =
  Some {| status := atol code; headers := hs; body := body |}.
Proof.
  intros Hcode Hall. unfold parse_response, cgi_text.
  set (lines := ("Status: " +:+ code) :: map header_line hs).
  assert (Hcr : Forall (fun l => contains CR l = false) lines).
  { apply Forall_cons_2.
    - rewrite contains_append, Hcode. reflexivity.
    - apply Forall_map. eapply Forall_impl; [exact Hall|].
      intros [n v] (Hn & _ & Hv). unfold header_line. cbn [fst snd] in *.
      now rewrite !contains_append, Hn, Hv. }
  assert (Hne : Forall (fun l => l <> EmptyString) lines).
  { apply Forall_cons_2; [discriminate|].
    apply Forall_map. apply Forall_forall. intros [n v] _.
    unfold header_line. cbn [fst snd]. destruct n; discriminate. }
  rewrite split_blank_join.
  2: discriminate.
  2:{ apply Forall_forall. intros l Hin. split.
      - eapply (proj1 (Forall_forall _ _) Hcr); exact Hin.
      - eapply (proj1 (Forall_forall _ _) Hne); exact Hin. }
  rewrite split_lines_join; [| discriminate | exact Hcr |].
  2:{ pose proof (length_join lines Hne). lia. }
  unfold lines.
  change ("Status: " +:+ code) with (header_line ("Status", code)).
  rewrite header_of_header_line by reflexivity.
  rewrite omap_header_lines; [reflexivity|].
  eapply Forall_impl; [exact Hall|]. now intros h (_ & Hn & _).
Qed.

Lemma contains_break_digit c d (s : string) :
  c = CR \/ c = LF -> 0 <= d < 10 ->
  contains c (String (digit_chr d) s) = contains c s.
Proof.
  intros [-> | ->] Hd; digit_cases d; reflexivity.
Qed.

Lemma digits_of_no_break c (f : nat) : forall m (X : string),
  c = CR \/ c = LF -> contains c (digits_of f m X) = contains c X.
Proof.
  induction f as [|f IH]; intros m X Hc; simpl.
  - apply contains_break_digit; [exact Hc | apply Z.mod_pos_bound; lia].
  - destruct (m <? 10).
    + apply contains_break_digit; [exact Hc | apply Z.mod_pos_bound; lia].
    + rewrite IH by exact Hc.
      apply contains_break_digit; [exact Hc | apply Z.mod_pos_bound; lia].
Qed.

Lemma to_string_no_break c n : c = CR \/ c = LF -> contains c (to_string n) = false.
Proof.
  intros Hc. unfold to_string.
  destruct (n <? 0); simpl; rewrite digits_of_no_break by exact Hc;
    destruct Hc as [-> | ->]; reflexivity.
Qed.

Lemma to_string_no_cr n : contains CR (to_string n) = false.
Proof. apply to_string_no_break. now left. Qed.

Lemma hex_digit_no_break c x :
  c = CR \/ c = LF ->
  Ascii.eqb (hex_digit (Z.shiftr (byte_val x) 4)) c = false /\
  Ascii.eqb (hex_digit (Z.land (byte_val x) 15)) c = false.
Proof.
  intros [-> | ->]; destruct x as [[] [] [] [] [] [] [] []]; split; reflexivity.
Qed.

Lemma hexencode_no_break c (s : string) :
  c = CR \/ c = LF -> contains c (hexencode s) = false.
Proof.
  intros Hc. induction s as [|x s IH]; [reflexivity|].
  destruct (hex_digit_no_break c x Hc) as [H1 H2].
  cbn [hexencode contains]. now rewrite H1, H2, IH.
Qed.

(** The cookie of [create_cookie] is one line of text. *)
Lemma create_cookie_no_break c (user token : string) (w w' : world RateLimiter) :
  c = CR \/ c = LF ->
  create_cookie user w = Some (token, w') -> contains c token = false.
Proof.
  intros Hc. rewrite create_cookie_run. intros [= <- _]. cbv zeta.
  rewrite !contains_append. cbn [contains].
  rewrite to_string_no_break, !hexencode_no_break by exact Hc.
  destruct Hc as [-> | ->]; reflexivity.
Qed.

Lemma create_cookie_no_cr (user token : string) (w w' : world RateLimiter) :
  create_cookie user w = Some (token, w') -> contains CR token = false.
Proof. apply create_cookie_no_break. now left. Qed.

Ltac text_eq :=
  unfold cgi_text, header_line; cbn [join map fst snd];
  rewrite ?append_assoc; simpl; rewrite ?append_assoc, ?append_empty_r; reflexivity.

(** The two pages of the rendering step. *)
Lemma login_page_cases (req : web_req) (wcfg : web_t) (rpage : string) (lerror : bool) :
  (templates !! webtemplate wcfg = None /\
   login_page req wcfg rpage lerror =
     cgi_text "500" [("Content-Type", "text/plain"); ("Content-Length", "23")]
              "Could not find template") \/
  (exists render,
      templates !! webtemplate wcfg = Some render /\
      login_page req wcfg rpage lerror =
        cgi_text "200"
          [("Content-Type", "text/html");
           ("Content-Length",
            to_string (Z.of_nat (String.length (render (host req) rpage lerror))))]
          (render (host req) rpage lerror)).
Proof.
  unfold login_page. destruct (templates !! webtemplate wcfg) as [render|].
  - right. exists render. split; [reflexivity|]. text_eq.
  - left. split; reflexivity.
Qed.

(** *** What one run of the handler does *)

Lemma totp_valid_frame (u : cred_t) (c W : Z) (w w' : world RateLimiter) (b : bool) :
  totp_valid u c W w = Some (b, w') -> w' = tick w.
Proof.
  unfold totp_valid. run_handler.
  destruct (period u =? 0); [discriminate|].
  destruct (s32 W =? INT_MIN); [discriminate|].
  unfold lift. destruct totp_scan; [|discriminate].
  now intros [= _ <-].
Qed.

Lemma check_cookie_frame (cookie : string) (wcfg : web_t) (w w' : world RateLimiter)
    (b : bool) :
  check_cookie cookie wcfg w = Some (b, w') -> w' = w \/ w' = tick w.
Proof.
  unfold check_cookie.
  repeat match goal with
         | |- context [match ?x with _ => _ end] => destruct x
         end;
    run_handler;
    repeat match goal with
           | |- context [if ?x then _ else _] => destruct x
           end;
    intros [= _ <-]; auto.
Qed.


Lemma credentials_ok_frame (wcfg : web_t) (user pass : string) (totp : Z)
    (w w' : world RateLimiter) (b : bool) :
  credentials_ok wcfg user pass totp w = Some (b, w') -> w' = w \/ w' = tick w.
Proof.
  unfold credentials_ok. destruct (users wcfg !! user) as [cred|].
  - destruct (String.eqb (password cred) pass).
    + intros H. right. eapply totp_valid_frame. exact H.
    + intros [= _ <-]. now left.
  - intros [= _ <-]. now left.
Qed.

(** Every way [process_req] has to answer: the response as status, headers
    and body, and the world it leaves. *)
Lemma process_req_run (req : web_req) (wcfg : web_t) (w w' : world RateLimiter)
    (resp : string) :
  process_req req wcfg w = Some (resp, w') ->
  let user := strmap_get (postvars req) "username" in
  let pass := strmap_get (postvars req) "password" in
  let totp := u32 (atoi (strmap_get (postvars req) "totp")) in
  (uri req = "/auth" /\
   exists (authed : bool) (w1 : world RateLimiter),
     check_cookie (strmap_get (cookies req) "authentication-token") wcfg w =
       Some (authed, w1) /\
     ((authed = true /\
       w' = add_log "Requested authentication succeeded" w1 /\
       resp = cgi_text "200" [("Content-Type", "text/plain"); ("Content-Length", "24")]
                       "Authentication Succeeded") \/
      (authed = false /\
       w' = add_log "Requested authentication denied" w1 /\
       resp = cgi_text "401" [("Content-Type", "text/plain"); ("Content-Length", "21")]
                       "Authentication Denied"))) \/
  (uri req = "/login" /\
   exists (denied : bool) (rl : RateLimiter),
     rl_check (ip64 req) (limiter w) = (denied, rl) /\
     let w0 := set_limiter (rl_consume (ip64 req) rl) w in
     ((denied = true /\
       w' = add_log ("Rate limit hit for ip id " +:+ to_string (ip64 req))
                    (set_limiter rl w) /\
       resp = cgi_text "429" [("Content-Type", "text/plain"); ("Content-Length", "34")]
                       "Too many requests, request blocked") \/
      (denied = false /\ method req <> "POST" /\ w' = w0 /\
       resp = login_page req wcfg (follow_page req) false) \/
      (denied = false /\ method req = "POST" /\
       exists w2 : world RateLimiter,
         credentials_ok wcfg user pass totp w0 = Some (false, w2) /\
         w' = add_log ("Failed login for user " +:+ user) w2 /\
         resp = login_page req wcfg (follow_page req) true) \/
      (denied = false /\ method req = "POST" /\
       exists (w2 : world RateLimiter) (token : string),
         credentials_ok wcfg user pass totp w0 = Some (true, w2) /\
         create_cookie user (add_log ("Login successful for user " +:+ user) w2) =
           Some (token, w') /\
         resp = cgi_text "302"
                  [("Set-Cookie", "authentication-token=" +:+ token);
                   ("Location", stripnl (follow_page req))] EmptyString))) \/
  (uri req = "/logout" /\
   w' = add_log "Logout requested" w /\
   resp = cgi_text "302"
            [("Set-Cookie", "authentication-token=null");
             ("Cache-Control", "no-cache, no-store, max-age=0");
             ("Location", "/login")] EmptyString) \/
  (uri req <> "/auth" /\ uri req <> "/login" /\ uri req <> "/logout" /\
   w' = add_log ("Unknown request for URL: " +:+ uri req) w /\
   resp = cgi_text "404"
            [("Content-Type", "text/plain"); ("Content-Length", "48");
             ("Not found, valid endpoints", "/auth /login /logout")] EmptyString).
Proof.
  cbv zeta. unfold process_req.
  destruct (String.eqb_spec (uri req) "/auth") as [Ha | Ha].
  { run_handler.
    destruct (check_cookie_total (strmap_get (cookies req) "authentication-token") wcfg w)
      as ([] & w1 & ->); intros [= <- <-]; left; (split; [exact Ha|]);
      eexists; exists w1; (split; [reflexivity|]); [left | right];
      repeat split; reflexivity. }
  destruct (String.eqb_spec (uri req) "/login") as [Hl | Hl].
  { run_handler. unfold check.
    destruct (rl_check (ip64 req) (limiter w)) as [[] rl];
      [|unfold consume, login_form]; intros Hrun;
      right; left; (split; [exact Hl|]); eexists; exists rl; (split; [reflexivity|]).
    - injection Hrun as <- <-. left. repeat split; reflexivity.
    - right. destruct (String.eqb_spec (method req) "POST") as [Hp | Hp].
      + revert Hrun. run_handler. intros Hrun.
        match type of Hrun with
        | context [credentials_ok ?a ?b ?c ?d ?e] =>
            destruct (credentials_ok a b c d e) as [[[] w2]|] eqn:Hok
        end; [| |discriminate].
        * rewrite create_cookie_run in Hrun. injection Hrun as <- <-.
          right. right. repeat split; try assumption.
          exists w2. eexists.
          split; [exact Hok|]. split; [apply create_cookie_run|]. text_eq.
        * injection Hrun as <- <-. right. left. repeat split; try assumption.
          exists w2. repeat split. exact Hok.
      + injection Hrun as <- <-. left. repeat split; assumption || reflexivity. }
  destruct (String.eqb_spec (uri req) "/logout") as [Ho | Ho].
  { intros [= <- <-]. right. right. left. repeat split; assumption || reflexivity. }
  intros [= <- <-]. right. right. right. repeat split; assumption || reflexivity.
Qed.

Ltac clean_headers :=
  repeat (apply Forall_cons_2; [repeat split; try reflexivity|]); try apply Forall_nil_2.

Ltac page_cases req wcfg lerror :=
  let Hpage := fresh "Hpage" in
  destruct (login_page_cases req wcfg (follow_page req) lerror)
    as [(_ & Hpage) | (render & _ & Hpage)]; rewrite Hpage in *; clear Hpage.

(** Closes a goal about the parts of a response that was read back. *)
Ltac finish_response :=
  eexists; split; [reflexivity|];
  cbn [status body headers header String.eqb Ascii.eqb Bool.eqb In];
  repeat match goal with
         | |- context [atol ?s] =>
             let v := eval vm_compute in (atol s) in change (atol s) with v
         end;
  repeat match goal with
         | |- _ /\ _ => split
         | |- _ -> _ => intro
         | H : ?x <> ?x |- _ => contradiction H; reflexivity
         | H : _ = _ |- _ => discriminate H
         | |- exists _, _ => eexists
         | |- _ \/ _ => auto 10
         | |- _ = _ => reflexivity
         end.

(** X1. Whatever the request, the text [process_req] returns reads as a CGI
    response: a status line with one of six codes, headers, a blank line
    and a body. A redirect (302) carries a [Location], no [Content-Length]
    and no body. Every other answer announces [Content-Type] and
    [Content-Length]; the 404 apart, the announced length is the length of
    the body, also for a login page of any template. *)
Theorem response_well_formed (req : web_req) (wcfg : web_t) (w w' : world RateLimiter)
    (resp : string) :
  process_req req wcfg w = Some (resp, w') ->
  exists r : response,
    parse_response resp = Some r /\
    In (status r) [200; 302; 401; 404; 429; 500] /\
    (status r = 302 ->
       body r = EmptyString /\ header "Content-Length" (headers r) = None /\
       exists l, header "Location" (headers r) = Some l) /\
    (status r <> 302 ->
       exists t v, header "Content-Type" (headers r) = Some t /\
                   header "Content-Length" (headers r) = Some v /\
                   (status r <> 404 -> v = to_string (Z.of_nat (String.length (body r))))).
Proof.
  intros Hrun.
  destruct (process_req_run _ _ _ _ _ Hrun)
    as [(_ & authed & w1 & _ & [(_ & _ & ->) | (_ & _ & ->)])
       | [(_ & denied & rl & _ &
           [(_ & _ & ->) | [(_ & _ & _ & ->) | [(_ & _ & w2 & _ & _ & ->)
            | (_ & _ & w2 & token & _ & Hc & ->)]]])
       | [(_ & _ & ->) | (_ & _ & _ & _ & ->)]]].
  - rewrite parse_cgi_text by (reflexivity || clean_headers). finish_response.
  - rewrite parse_cgi_text by (reflexivity || clean_headers). finish_response.
  - rewrite parse_cgi_text by (reflexivity || clean_headers). finish_response.
  - page_cases req wcfg false.
    + rewrite parse_cgi_text by (reflexivity || clean_headers). finish_response.
    + rewrite parse_cgi_text
        by (reflexivity || (clean_headers; apply to_string_no_cr)).
      finish_response.
  - page_cases req wcfg true.
    + rewrite parse_cgi_text by (reflexivity || clean_headers). finish_response.
    + rewrite parse_cgi_text
        by (reflexivity || (clean_headers; apply to_string_no_cr)).
      finish_response.
  - apply create_cookie_no_cr in Hc.
    rewrite parse_cgi_text.
    2: reflexivity.
    2:{ clean_headers.
        - cbn [snd]. now rewrite contains_append, Hc.
        - apply stripnl_clean. }
    finish_response.
  - rewrite parse_cgi_text by (reflexivity || clean_headers). finish_response.
  - rewrite parse_cgi_text by (reflexivity || clean_headers). finish_response.
Qed.



(** X3. Only [/login] reaches the rate limiter. On every other URI the
    handler leaves the limiter as it was; it reads the clock at most once,
    and only on [/auth]. *)
Theorem limiter_untouched_outside_login (req : web_req) (wcfg : web_t)
    (w w' : world RateLimiter) (resp : string) :
  uri req <> "/login" ->
  process_req req wcfg w = Some (resp, w') ->
  limiter w' = limiter w /\ clock w' = clock w /\
  (ticks w' = ticks w \/ uri req = "/auth" /\ ticks w' = S (ticks w)).
Proof.
  intros Hn Hrun.
  destruct (process_req_run _ _ _ _ _ Hrun)
    as [(Ha & authed & w1 & Hck & Hw) | [(Hl & _) | [(_ & -> & _) | (_ & _ & _ & -> & _)]]].
  - assert (Hw' : exists line, w' = add_log line w1)
      by (destruct Hw as [(_ & -> & _) | (_ & -> & _)]; eexists; reflexivity).
    destruct Hw' as (line & ->).
    destruct (check_cookie_frame _ _ _ _ _ Hck) as [-> | ->]; cbn; auto.
  - contradiction.
  - cbn. auto.
  - cbn. auto.
Qed.

(** X4. One run of the handler adds at most one line to the log and
    leaves the earlier lines alone. The line names the outcome and, of the
    request, only the URI, the client key or the posted user name: never
    the password, the code or the cookie. Nothing is logged only for a
    [/login] that is no POST and that the rate limiter let through. *)
Theorem log_lines (req : web_req) (wcfg : web_t) (w w' : world RateLimiter)
    (resp : string) :
  process_req req wcfg w = Some (resp, w') ->
  let user := strmap_get (postvars req) "username" in
  (logged w' = logged w /\ uri req = "/login" /\ method req <> "POST" /\
   fst (rl_check (ip64 req) (limiter w)) = false) \/
  exists line,
    logged w' = logged w ++ [line] /\
    In line ["Requested authentication succeeded"; "Requested authentication denied";
             "Rate limit hit for ip id " +:+ to_string (ip64 req);
             "Login successful for user " +:+ user; "Failed login for user " +:+ user;
             "Logout requested"; "Unknown request for URL: " +:+ uri req].
Proof.
  intros Hrun. cbv zeta.
  destruct (process_req_run _ _ _ _ _ Hrun)
    as [(_ & authed & w1 & Hck & [(_ & -> & _) | (_ & -> & _)])
       | [(Hl & denied & rl & Hrl &
           [(_ & -> & _) | [(-> & Hp & -> & _) | [(_ & _ & w2 & Hok & -> & _)
            | (_ & _ & w2 & token & Hok & Hc & _)]]])
       | [(_ & -> & _) | (_ & _ & _ & -> & _)]]].
  - right. eexists. split; [|left; reflexivity].
    destruct (check_cookie_frame _ _ _ _ _ Hck) as [-> | ->]; reflexivity.
  - right. eexists. split; [|right; left; reflexivity].
    destruct (check_cookie_frame _ _ _ _ _ Hck) as [-> | ->]; reflexivity.
  - right. eexists. split; [reflexivity|]. cbn. auto.
  - left. rewrite Hrl. repeat split; assumption.
  - right. eexists. split; [|do 4 right; left; reflexivity].
    destruct (credentials_ok_frame _ _ _ _ _ _ _ Hok) as [-> | ->]; reflexivity.
  - right. rewrite create_cookie_run in Hc. injection Hc as _ <-.
    eexists. split; [|do 3 right; left; reflexivity].
    destruct (credentials_ok_frame _ _ _ _ _ _ _ Hok) as [-> | ->]; reflexivity.
  - right. eexists. split; [reflexivity|]. cbn. auto 10.
  - right. eexists. split; [reflexivity|]. cbn. auto 10.
Qed.


(** X6. [check_cookie] accepts a cookie exactly when it has the three
    fields [time:hex(user):hex(hmac)], the second field decodes to a
    configured user, the current time as an [unsigned] is at most the time
    field plus that user's session duration, computed in 64 bits, and the
    third field decodes to the HMAC of the first two fields under the
    secret; the clock is then read once. *)
Theorem check_cookie_accepts (cookie : string) (wcfg : web_t) (w w' : world RateLimiter) :
  check_cookie cookie wcfg w = Some (true, w') <->
  exists (ts hu hm user : string) (cred : cred_t),
    cookie = ts +:+ ":" +:+ hu +:+ ":" +:+ hm /\
    contains ":" ts = false /\ contains ":" hu = false /\
    hexdecode hu = Some user /\
    users wcfg !! user = Some cred /\
    u32 (now w) <= u64 (u64 (atol ts) + sduration cred) /\
    hexdecode hm = Some (hmac_sha1 cookie_secret (ts +:+ ":" +:+ hu)) /\
    w' = tick w.
Proof.
  split.
  - intros Hck.
    destruct (le_lt_dec 2 (count_char ":" cookie)) as [Hc | Hc].
    2:{ rewrite check_cookie_few_colons in Hck by exact Hc. discriminate. }
    destruct (cookie_fields cookie Hc) as (ts & hu & hm & -> & Hts & Hhu).
    rewrite check_cookie_fields in Hck by assumption.
    destruct (hexdecode hu) as [user|] eqn:Eu; [|discriminate].
    destruct (hexdecode hm) as [hmac|] eqn:Em; [|discriminate].
    destruct (users wcfg !! user) as [cred|] eqn:Ec; [|discriminate].
    destruct (u32 (now w) >? u64 (u64 (atol ts) + sduration cred)) eqn:Et;
      [discriminate|].
    injection Hck as Heq <-. apply String.eqb_eq in Heq as ->.
    exists ts, hu, hm, user, cred. repeat split; try assumption.
    rewrite Z.gtb_ltb in Et. apply Z.ltb_ge in Et. exact Et.
  - intros (ts & hu & hm & user & cred & -> & Hts & Hhu & Eu & Ec & Et & Em & ->).
    rewrite check_cookie_fields by assumption. rewrite Eu, Em, Ec.
    replace (u32 (now w) >? u64 (u64 (atol ts) + sduration cred)) with false
      by (symmetry; rewrite Z.gtb_ltb; apply Z.ltb_ge; exact Et).
    now rewrite String.eqb_refl.
Qed.

(** ** One-time codes *)

Lemma po10_entries (n : nat) :
  po10 !! n = if (n <? 10)%nat then Some (10 ^ Z.of_nat n) else None.
Proof. do 10 (destruct n as [|n]; [reflexivity|]). reflexivity. Qed.

(** [totp_calc] for any [digits]: every read of the digest is in bounds,
    the read of [po10] decides. *)
Lemma totp_calc_reads (key : string) (algo : htAlgo) (d epoch : Z) :
  totp_calc key algo d epoch =
  match po10 !! Z.to_nat (u8 d) with
  | Some p => Some (hotp_value_spec (hmac_of algo key (totp_msg (u32 epoch))) mod p)
  | None => None
  end.
Proof.
  unfold totp_calc. rewrite algtbl_lookup. run_handler.
  set (h := hmac_of algo key (totp_msg (u32 epoch))).
  assert (Hlen : 20 <= Z.of_nat (String.length h) <= 64).
  { unfold h. rewrite hmac_of_size. destruct algo; simpl; lia. }
  unfold u64. rewrite (Z.mod_small (Z.of_nat (String.length h) - 1)) by lia.
  rewrite c_str_at_byte by lia. run_handler.
  fold (hotp_offset h). pose proof (hotp_offset_range h) as Hoff.
  rewrite !c_str_at_byte by lia. run_handler.
  rewrite totp_word_spec by apply byte_at_range.
  destruct (po10 !! Z.to_nat (u8 d)); reflexivity.
Qed.

Lemma u8_range z : 0 <= u8 z < 256.
Proof. unfold u8. apply Z.mod_pos_bound. lia. Qed.

Lemma u32_range z : 0 <= u32 z < 2^32.
Proof. unfold u32. apply Z.mod_pos_bound. lia. Qed.

(** X7. [totp_calc] returns a value exactly when its parameter [digits],
    a [uint8_t], is at most 9: from 10 on it reads past the end of [po10].
    A value it returns has at most [digits] decimal digits. Its parameters
    wrap: [digits] modulo 256 and the counter modulo 2^32. *)
Theorem totp_calc_defined (key : string) (algo : htAlgo) (d epoch : Z) :
  (is_Some (totp_calc key algo d epoch) <-> u8 d <= 9) /\
  (forall v, totp_calc key algo d epoch = Some v -> 0 <= v < 10 ^ u8 d) /\
  totp_calc key algo (d + 256) (epoch + 2^32) = totp_calc key algo d epoch.
Proof.
  pose proof (u8_range d) as Hd.
  rewrite !totp_calc_reads, !po10_entries.
  replace (u8 (d + 256)) with (u8 d)
    by (unfold u8; change 256 with (1 * 2^8); now rewrite Z_mod_plus_full).
  replace (u32 (epoch + 2^32)) with (u32 epoch)
    by (unfold u32; rewrite <- (Z.mul_1_l (2^32)) at 2; now rewrite Z_mod_plus_full).
  split; [|split; [|reflexivity]].
  - destruct (Nat.ltb_spec (Z.to_nat (u8 d)) 10) as [Hn | Hn].
    + split; [lia | intros _; eexists; reflexivity].
    + split; [intros [v Hv]; discriminate | lia].
  - intros v. destruct (Nat.ltb_spec (Z.to_nat (u8 d)) 10) as [Hn | Hn]; [|discriminate].
    intros [= <-]. rewrite Z2Nat.id by lia.
    apply Z.mod_pos_bound. apply Z.pow_pos_nonneg; lia.
Qed.

(** X9. Widening the window never locks a code out: a code that
    [totp_valid] accepts with [W] generations is accepted with any
    [W' >= W], as long as [W' <= 2^31 - 2]. *)
Theorem totp_window_monotone (u : cred_t) (c W W' : Z) (w : world RateLimiter) :
  6 <= digits u <= 9 -> period u <> 0 ->
  0 <= W <= W' -> W' <= 2^31 - 2 ->
  totp_valid u c W w = Some (true, tick w) ->
  totp_valid u c W' w = Some (true, tick w).
Proof.
  intros Hd Hp HW HW'. unfold totp_valid. run_handler.
  replace (period u =? 0) with false by (symmetry; now apply Z.eqb_neq).
  assert (Hs : forall g, 0 <= g <= 2^31 - 2 -> s32 g = g).
  { intros g Hg. unfold s32, u32. rewrite Z.mod_small by lia.
    replace (g <? 2 ^ 31) with true by (symmetry; apply Z.ltb_lt; lia).
    reflexivity. }
  rewrite !Hs by lia.
  replace (W =? INT_MIN) with false by (symmetry; apply Z.eqb_neq; unfold INT_MIN; lia).
  replace (W' =? INT_MIN) with false by (symmetry; apply Z.eqb_neq; unfold INT_MIN; lia).
  set (ct := u32 (Z.quot (now w) (period u))).
  destruct (totp_scan_spec u c ct (Z.to_nat (W - - W + 1)) (- W) Hd)
    as (b & Hb & Hiff); [unfold INT_MAX; lia|].
  destruct (totp_scan_spec u c ct (Z.to_nat (W' - - W' + 1)) (- W') Hd)
    as (b' & Hb' & Hiff'); [unfold INT_MAX; lia|].
  rewrite Hb, Hb'. intros [= ->]. f_equal. f_equal.
  apply Hiff'. destruct (proj1 Hiff eq_refl) as (j & Hj & Hc).
  exists j. split; [lia | exact Hc].
Qed.

(** ** One request, from [work] *)

Lemma get_take_bytes (b : nat) : forall (s : string) (k : nat),
  String.get k (take_bytes b s) = if (k <? b)%nat then String.get k s else None.
Proof.
  induction b as [|b IH]; intros s k; [reflexivity|].
  destruct s as [|c s]; [now destruct (k <? S b)%nat|].
  destruct k as [|k]; [reflexivity|]. cbn [take_bytes String.get]. apply IH.
Qed.

Lemma get_lt (s : string) : forall (k : nat) (c : ascii),
  String.get k s = Some c -> (k < String.length s)%nat.
Proof.
  induction s as [|x s IH]; intros k c H; [discriminate|].
  destruct k as [|k]; simpl; [lia|]. specialize (IH k c H). lia.
Qed.

Lemma get_ge (s : string) : forall k : nat,
  String.get k s = None -> (String.length s <= k)%nat.
Proof.
  induction s as [|x s IH]; intros k H; simpl; [lia|].
  destruct k as [|k]; [discriminate|]. specialize (IH k H). lia.
Qed.

(** The string stops at the NUL, wherever the search is bounded. *)
Lemma c_string_bound (body : nat -> ascii) (n : nat) : forall i : nat,
  body (i + n)%nat = zero -> (String.length (c_string body i (S n)) <= n)%nat.
Proof.
  induction n as [|n IH]; intros i H.
  - rewrite Nat.add_0_r in H. cbn [c_string]. rewrite H. simpl. lia.
  - cbn [c_string]. fold (c_string body (S i) (S n)).
    destruct (Ascii.eqb (body i) zero); [simpl; lia|].
    assert (H' : body (S i + n)%nat = zero) by (rewrite <- H; f_equal; lia).
    specialize (IH (S i) H'). simpl. simpl in IH. lia.
Qed.

Lemma c_string_no_nul (body : nat -> ascii) (n : nat) : forall i : nat,
  contains zero (c_string body i n) = false.
Proof.
  induction n as [|n IH]; intros i; [reflexivity|]. cbn [c_string].
  destruct (Ascii.eqb (body i) zero) eqn:E; [reflexivity|].
  cbn [contains]. now rewrite E, IH.
Qed.

Lemma c_string_get (body : nat -> ascii) (n : nat) : forall (i k : nat) (c : ascii),
  String.get k (c_string body i n) = Some c -> c = body (i + k)%nat.
Proof.
  induction n as [|n IH]; intros i k c H; [discriminate|]. cbn [c_string] in H.
  destruct (Ascii.eqb (body i) zero); [discriminate|].
  destruct k as [|k].
  - injection H as <-. now rewrite Nat.add_0_r.
  - cbn [String.get] in H. rewrite (IH _ _ _ H). f_equal. lia.
Qed.

(** An array that holds the bytes of [s] and then a NUL gives [s]. *)
Lemma c_string_exact (s : string) : forall (body : nat -> ascii) (i : nat),
  contains zero s = false ->
  (forall (k : nat) (c : ascii), String.get k s = Some c -> body (i + k)%nat = c) ->
  body (i + String.length s)%nat = zero ->
  c_string body i (S (String.length s)) = s.
Proof.
  induction s as [|x s IH]; intros body i Hz Hs Hend.
  - simpl in Hend. rewrite Nat.add_0_r in Hend. cbn [c_string]. now rewrite Hend.
  - cbn [contains] in Hz. apply orb_false_iff in Hz as [Hx Hz].
    pose proof (Hs 0%nat x eq_refl) as H0. rewrite Nat.add_0_r in H0.
    cbn [String.length c_string]. fold (c_string body (S i) (S (String.length s))).
    rewrite H0, Hx. f_equal. apply IH.
    + exact Hz.
    + intros k c Hk. rewrite <- (Hs (S k) c Hk). f_equal. lia.
    + rewrite <- Hend. f_equal. simpl. lia.
Qed.

Lemma prefix_cons (c : ascii) (a b : string) :
  String.prefix (String c a) (String c b) = String.prefix a b.
Proof. simpl. destruct (ascii_dec c c); [reflexivity | contradiction]. Qed.

Lemma prefix_by_get (a : string) : forall b : string,
  (forall (k : nat) (c : ascii), String.get k a = Some c -> String.get k b = Some c) ->
  String.prefix a b = true.
Proof.
  induction a as [|x a IH]; intros b H; [now destruct b|].
  destruct b as [|y b].
  - specialize (H 0%nat x eq_refl). discriminate.
  - pose proof (H 0%nat x eq_refl) as H0. injection H0 as ->.
    rewrite prefix_cons. apply IH. intros k c Hk. exact (H (S k) c Hk).
Qed.

(** X10. The body [work] hands to [parse_vars] exists only when the
    request has a [CONTENT_LENGTH]; it has at most [CONTENT_LENGTH] and at
    most [MAX_REQ_SIZE] (4096) bytes and no NUL. Each of its bytes is the
    byte the client sent at that position or, past the end of what the
    client sent, the byte the array held before the read. When the client
    sent at least as many bytes as announced, the body is a prefix of what
    it sent. *)
Theorem request_body_bounded (content_length : option string) (input posted : string)
    (stale : nat -> ascii) :
  request_body content_length input stale = Some posted ->
  exists v, content_length = Some v /\
    let bsize := Z.max 0 (Z.min (atoi v) MAX_REQ_SIZE) in
    Z.of_nat (String.length posted) <= bsize <= 4096 /\
    contains zero posted = false /\
    (forall (i : nat) (c : ascii),
        String.get i posted = Some c ->
        String.get i input = Some c \/
        ((String.length input <= i)%nat /\ c = stale i)) /\
    (bsize <= Z.of_nat (String.length input) -> String.prefix posted input = true).
Proof.
  destruct content_length as [v|]; [|discriminate].
  unfold request_body. cbv zeta.
  set (bz := Z.max 0 (Z.min (atoi v) MAX_REQ_SIZE)).
  assert (Hb : 0 <= bz <= 4096) by (unfold bz, MAX_REQ_SIZE; lia).
  set (bsize := Z.to_nat bz).
  set (body := set_byte (stream_read stale bsize input) bsize zero).
  intros H. assert (Hp : posted = c_string body 0 (S bsize)) by congruence.
  clear H. rewrite Hp. clear Hp posted. exists v. split; [reflexivity|].
  assert (Hend : body (0 + bsize)%nat = zero)
    by (unfold body, set_byte; cbn [Nat.add]; now rewrite Nat.eqb_refl).
  pose proof (c_string_bound body bsize 0 Hend) as Hlen.
  assert (Hbytes : forall (i : nat) (c : ascii),
             String.get i (c_string body 0 (S bsize)) = Some c ->
             (i < bsize)%nat /\
             c = match String.get i input with Some c' => c' | None => stale i end).
  { intros i c Hi. pose proof (get_lt _ _ _ Hi) as Hlt. split; [lia|].
    rewrite (c_string_get _ _ _ _ _ Hi). cbn [Nat.add]. unfold body, set_byte.
    replace (i =? bsize)%nat with false by (symmetry; apply Nat.eqb_neq; lia).
    unfold stream_read. rewrite get_take_bytes.
    replace (i <? bsize)%nat with true by (symmetry; apply Nat.ltb_lt; lia).
    reflexivity. }
  split; [|split; [|split]].
  - lia.
  - apply c_string_no_nul.
  - intros i c Hi. destruct (Hbytes i c Hi) as [Hlt ->].
    destruct (String.get i input) eqn:E; [now left | right].
    split; [now apply get_ge | reflexivity].
  - intros Hfull. apply prefix_by_get. intros k c Hk.
    destruct (Hbytes k c Hk) as [Hlt ->].
    destruct (get_in_range input k) as [c' Hc']; [lia|]. now rewrite Hc'.
Qed.

(** X11. A body of at most 4096 bytes without a NUL, announced with its
    length in decimal, reaches [parse_vars] as it was sent. *)
Theorem request_body_received (input : string) (stale : nat -> ascii) :
  (String.length input <= 4096)%nat ->
  contains zero input = false ->
  request_body (Some (to_string (Z.of_nat (String.length input)))) input stale =
    Some input.
Proof.
  intros Hlen Hz. unfold request_body. cbv zeta.
  assert (Ha : atoi (to_string (Z.of_nat (String.length input))) =
               Z.of_nat (String.length input)).
  { unfold atoi. fold (atol (to_string (Z.of_nat (String.length input)))).
    rewrite atol_to_string by (unfold LONG_MIN, LONG_MAX; lia).
    unfold s32, u32. rewrite Z.mod_small by lia.
    replace (Z.of_nat (String.length input) <? 2 ^ 31) with true
      by (symmetry; apply Z.ltb_lt; lia).
    reflexivity. }
  rewrite Ha.
  replace (Z.max 0 (Z.min (Z.of_nat (String.length input)) MAX_REQ_SIZE))
    with (Z.of_nat (String.length input)) by (unfold MAX_REQ_SIZE; lia).
  rewrite Nat2Z.id. f_equal. apply c_string_exact.
  - exact Hz.
  - intros k c Hk. pose proof (get_lt _ _ _ Hk) as Hlt.
    cbn [Nat.add]. unfold set_byte.
    replace (k =? String.length input)%nat with false
      by (symmetry; apply Nat.eqb_neq; lia).
    unfold stream_read. rewrite get_take_bytes.
    replace (k <? String.length input)%nat with true
      by (symmetry; apply Nat.ltb_lt; lia).
    now rewrite Hk.
  - cbn [Nat.add]. unfold set_byte. now rewrite Nat.eqb_refl.
Qed.

(** X12. A request that has a [CONTENT_LENGTH] and names a host that is
    not configured never reaches [process_req]: [work] answers 500 with
    the body [Unknown hostname: <host>] and a [Content-Length] that is the
    length of that body, writes one line to the log, and leaves the clock
    and the rate limiter alone, whatever the request and the array
    hold. *)
Theorem unknown_host_response (globals : config) (env : gmap string string)
    (input v : string) (stale : nat -> ascii) (w : world RateLimiter) :
  env !! "CONTENT_LENGTH" = Some v ->
  webcfg globals !! default "" (env !! "HTTP_HOST") = None ->
  let name := default "" (env !! "HTTP_HOST") in
  exists (resp : string) (r : response),
    work_request globals env input stale w =
      Some (resp, add_log ("Failed to find host '" +:+ name +:+ "'") w) /\
    parse_response resp = Some r /\
    status r = 500 /\
    body r = "Unknown hostname: " +:+ name /\
    header "Content-Type" (headers r) = Some "text/plain" /\
    header "Content-Length" (headers r) =
      Some (to_string (Z.of_nat (String.length (body r)))).
Proof.
  intros Hcl Hhost name. unfold work_request, request_body. rewrite Hcl. run_handler.
  cbv beta iota zeta delta [host]. rewrite Hhost. fold name.
  exists (cgi_text "500"
            [("Content-Type", "text/plain");
             ("Content-Length", to_string (Z.of_nat (String.length name) + 18))]
            ("Unknown hostname: " +:+ name)).
  eexists. split; [f_equal; f_equal; text_eq|].
  rewrite parse_cgi_text
    by (reflexivity || (clean_headers; apply to_string_no_cr)).
  split; [reflexivity|]. cbn [status body headers header String.eqb Ascii.eqb Bool.eqb].
  repeat split. do 2 f_equal. rewrite length_append. simpl String.length. lia.
Qed.

(** ** Reading the configuration *)

Lemma s32_range z : - 2^31 <= s32 z < 2^31.
Proof.
  unfold s32. pose proof (u32_range z). cbv zeta.
  destruct (Z.ltb_spec (u32 z) (2^31)); lia.
Qed.

Lemma config_setting_get_int_range (s : setting) :
  - 2^31 <= config_setting_get_int s < 2^31.
Proof. destruct s; simpl; try lia. apply s32_range. Qed.

Ltac loader_step H :=
  cbv beta iota delta [mbind mret outcome_bind outcome_ret std_string
                       config_setting_get_string] in H;
  try discriminate H.

(** What the loop over the users stores for one entry. *)
Lemma load_user_stores (e : setting) (users users' : gmap string cred_t) :
  load_user e users = Loaded users' ->
  exists (name pw key : string) (dur : setting) (cred : cred_t),
    config_setting_get_member e "username" = Some (CfgString name) /\
    config_setting_get_member e "password" = Some (CfgString pw) /\
    config_setting_get_member e "totp" = Some (CfgString key) /\
    config_setting_get_member e "duration" = Some dur /\
    users' = <[name := cred]> users /\
    password cred = pw /\ totp cred = b32dec (b32pad key) /\
    sduration cred = u32 (config_setting_get_int dur) /\
    cred_ok cred.
Proof.
  unfold load_user. cbv zeta.
  set (digi := match config_setting_get_member e "digits" with
               | Some d => config_setting_get_int d
               | None => TOTP_DEF_DIGITS
               end).
  set (peri := match config_setting_get_member e "period" with
               | Some p => config_setting_get_int p
               | None => TOTP_DEF_PERIOD
               end).
  assert (Hperi : peri < 2^31).
  { unfold peri. destruct (config_setting_get_member e "period") as [p|].
    - apply config_setting_get_int_range.
    - unfold TOTP_DEF_PERIOD. lia. }
  intros H.
  destruct (config_setting_get_member e "algorithm") as [[| alg | | |]|];
    loader_step H.
  all: destruct (config_setting_get_member e "username") as [user|]; loader_step H.
  all: destruct (config_setting_get_member e "password") as [pass|]; loader_step H.
  all: destruct (config_setting_get_member e "totp") as [key|]; loader_step H.
  all: destruct (config_setting_get_member e "duration") as [dur|]; loader_step H.
  all: destruct ((digi <? 6) || (digi >? 9)) eqn:Hd; loader_step H.
  all: destruct (peri <=? 0) eqn:Hp; loader_step H.
  all: match type of H with
       | context [algnames !! ?a] => destruct (algnames !! a) as [algo|]
       end; loader_step H.
  all: destruct user as [| name | | |]; loader_step H.
  all: destruct pass as [| pw | | |]; loader_step H.
  all: destruct key as [| key | | |]; loader_step H.
  all: injection H as <-.
  all: apply orb_false_iff in Hd as [Hd1 Hd2]; apply Z.ltb_ge in Hd1;
       rewrite Z.gtb_ltb in Hd2; apply Z.ltb_ge in Hd2; apply Z.leb_gt in Hp.
  all: exists name, pw, key, dur; eexists; repeat split; try reflexivity;
       cbn [sduration digits period]; try apply u32_range;
       unfold u32; rewrite Z.mod_small; lia.
Qed.

Lemma load_users_ok (es : list setting) : forall users users' : gmap string cred_t,
  load_users es users = Loaded users' ->
  map_Forall (fun _ c => cred_ok c) users ->
  map_Forall (fun _ c => cred_ok c) users'.
Proof.
  induction es as [|e es IH]; intros users users' H Hall.
  - injection H as <-. exact Hall.
  - cbn [load_users] in H.
    destruct (load_user e users) as [users1| |] eqn:He; loader_step H.
    destruct (load_user_stores _ _ _ He)
      as (name & pw & key & dur & cred & _ & _ & _ & _ & -> & _ & _ & _ & Hok).
    apply (IH _ _ H). apply map_Forall_insert_2; assumption.
Qed.

(** What the configuration guarantees for one host. *)
Lemma load_web_stores (e : setting) (webs webs' : gmap string web_t) :
  load_web e webs = Loaded webs' ->
  exists (name : string) (wcfg : web_t),
    webs' = <[name := wcfg]> webs /\
    0 <= totp_generations wcfg < 2^32 /\
    map_Forall (fun _ c => cred_ok c) (users wcfg).
Proof.
  unfold load_web. cbv zeta. intros H.
  destruct (config_setting_get_member e "hostname") as [[| name | | |]|];
    loader_step H.
  all: destruct (config_setting_get_member e "template") as [[| template | | |]|];
    loader_step H.
  all: destruct (config_setting_get_member e "users") as [users_cfg|]; loader_step H.
  all: destruct (load_users (config_elems users_cfg) ∅) as [us| |] eqn:Hus;
    loader_step H.
  all: injection H as <-.
  all: eexists; eexists; split; [reflexivity|]; cbn [totp_generations users]; split;
    [| apply (load_users_ok _ _ _ Hus); apply map_Forall_empty].
  all: destruct (config_setting_get_member e "totp_generations");
    [apply u32_range | unfold TOTP_DEF_GENS; lia].
Qed.

Lemma load_webs_ok (es : list setting) : forall webs webs' : gmap string web_t,
  load_webs es webs = Loaded webs' ->
  let good := fun (_ : string) (wcfg : web_t) =>
                0 <= totp_generations wcfg < 2^32 /\
                map_Forall (fun _ c => cred_ok c) (users wcfg) in
  (map_Forall good webs -> map_Forall good webs') /\
  (webs <> ∅ \/ es <> [] -> webs' <> ∅).
Proof.
  induction es as [|e es IH]; intros webs webs' H good.
  - injection H as <-. split; [auto|]. intros [Hw | He]; [exact Hw | contradiction].
  - cbn [load_webs] in H.
    destruct (load_web e webs) as [webs1| |] eqn:He; loader_step H.
    destruct (load_web_stores _ _ _ He) as (name & wcfg & -> & Hg & Hu).
    destruct (IH _ _ H) as [IH1 IH2]. split.
    + intros Hall. apply IH1. apply map_Forall_insert_2; [split|]; assumption.
    + intros _. apply IH2. left. apply insert_non_empty.
Qed.

(** From a run of [main] to the run of its loop over the web entries. *)
Lemma load_config_webs (cfg : setting) (globals : config) :
  load_config cfg = Loaded globals ->
  exists es : list setting,
    es <> [] /\ load_webs es ∅ = Loaded (webcfg globals) /\
    nthreads globals = Z.max (default 4 (config_lookup_int cfg "nthreads")) 1 /\
    auths_per_second globals = default 2 (u32 <$> config_lookup_int cfg "auth_per_second").
Proof.
  unfold load_config. cbv zeta. intros H.
  destruct (config_lookup_string cfg "secret") as [sec|]; loader_step H.
  destruct (config_setting_get_member cfg "webs") as [webs_cfg|]; loader_step H.
  destruct (config_elems webs_cfg) as [|e es] eqn:Hes; loader_step H.
  cbn [length Nat.eqb] in H.
  destruct (load_webs (e :: es) ∅) as [webs| |] eqn:Hw; loader_step H.
  injection H as <-. exists (e :: es). repeat split; [discriminate | exact Hw].
Qed.

(** X13. When [main] gets as far as starting the workers, what it has
    loaded satisfies the invariants of the data model: there is at least
    one worker and at least one host, every window is an [unsigned], and
    every credential has [6 <= digits <= 9], [0 < period] and a session
    duration that is an [unsigned]. *)
Theorem loaded_config_invariant (cfg : setting) (globals : config) :
  load_config cfg = Loaded globals ->
  1 <= nthreads globals < 2^31 /\
  0 <= auths_per_second globals < 2^32 /\
  webcfg globals <> ∅ /\
  forall (name : string) (wcfg : web_t),
    webcfg globals !! name = Some wcfg ->
    0 <= totp_generations wcfg < 2^32 /\
    forall (user : string) (cred : cred_t),
      users wcfg !! user = Some cred -> cred_ok cred.
Proof.
  intros H. destruct (load_config_webs _ _ H) as (es & Hne & Hw & -> & ->).
  destruct (load_webs_ok _ _ _ Hw) as [Hall Hnonempty].
  split; [|split; [|split]].
  - unfold config_lookup_int.
    destruct (config_setting_get_member cfg "nthreads") as [[z| | | |]|];
      cbn [from_option id]; try lia.
    pose proof (s32_range z). lia.
  - destruct (config_lookup_int cfg "auth_per_second");
      cbn [fmap option_fmap option_map from_option id]; [apply u32_range | lia].
  - apply Hnonempty. now right.
  - intros name wcfg Hl.
    destruct (Hall (map_Forall_empty _) name wcfg Hl) as [Hg Hu].
    split; [exact Hg|]. intros user cred Hc. exact (Hu user cred Hc).
Qed.

(** X14. An entry of the users loop replaces whatever was stored under
    its user name and touches no other user: of two entries with the same
    [username] the later one counts. *)
Theorem load_user_overwrites (e : setting) (users users' : gmap string cred_t) :
  load_user e users = Loaded users' ->
  exists (name pw key : string) (dur : setting) (cred : cred_t),
    config_setting_get_member e "username" = Some (CfgString name) /\
    config_setting_get_member e "password" = Some (CfgString pw) /\
    config_setting_get_member e "totp" = Some (CfgString key) /\
    config_setting_get_member e "duration" = Some dur /\
    users' !! name = Some cred /\
    password cred = pw /\ totp cred = b32dec (b32pad key) /\
    sduration cred = u32 (config_setting_get_int dur) /\
    forall other : string, other <> name -> users' !! other = users !! other.
Proof.
  intros H.
  destruct (load_user_stores _ _ _ H)
    as (name & pw & key & dur & cred & Hn & Hp & Hk & Hd & -> & Hpw & Ht & Hs & _).
  exists name, pw, key, dur, cred. repeat split; try assumption.
  - apply lookup_insert_eq.
  - intros other Ho. apply lookup_insert_ne. congruence.
Qed.

(** ** From the configuration to the answer *)

Lemma totp_valid_defined (u : cred_t) (c W : Z) (w : world RateLimiter) :
  cred_ok u -> 0 <= W < 2^32 -> W <> 2^31 - 1 -> W <> 2^31 ->
  exists b, totp_valid u c W w = Some (b, tick w).
Proof.
  intros (Hs & Hd & Hp) HW H1 H2.
  destruct (Z_lt_le_dec W (2^31)) as [Hlt | Hge].
  - unfold totp_valid. run_handler.
    replace (period u =? 0) with false by (symmetry; apply Z.eqb_neq; lia).
    assert (Hg : s32 W = W).
    { unfold s32, u32. rewrite Z.mod_small by lia.
      replace (W <? 2 ^ 31) with true by (symmetry; apply Z.ltb_lt; lia).
      reflexivity. }
    rewrite Hg.
    replace (W =? INT_MIN) with false
      by (symmetry; apply Z.eqb_neq; unfold INT_MIN; lia).
    destruct (totp_scan_spec u c (u32 (Z.quot (now w) (period u)))
                (Z.to_nat (W - - W + 1)) (- W) Hd)
      as (b & Hb & _); [unfold INT_MAX; lia|].
    rewrite Hb. now exists b.
  - exists false. apply totp_valid_negative_window; lia.
Qed.

Lemma process_req_defined (req : web_req) (wcfg : web_t) (w : world RateLimiter) :
  map_Forall (fun _ c => cred_ok c) (users wcfg) ->
  0 <= totp_generations wcfg < 2^32 ->
  totp_generations wcfg <> 2^31 - 1 -> totp_generations wcfg <> 2^31 ->
  exists resp w', process_req req wcfg w = Some (resp, w').
Proof.
  intros Hall Hg H1 H2. unfold process_req.
  destruct (String.eqb (uri req) "/auth").
  { run_handler.
    destruct (check_cookie_total (strmap_get (cookies req) "authentication-token") wcfg w)
      as ([] & w1 & ->); eauto. }
  destruct (String.eqb (uri req) "/login").
  { run_handler. unfold check.
    destruct (rl_check (ip64 req) (limiter w)) as [[] rl]; [eauto|].
    unfold consume, login_form.
    destruct (String.eqb (method req) "POST"); [|eauto].
    run_handler. unfold credentials_ok.
    destruct (users wcfg !! strmap_get (postvars req) "username") as [cred|] eqn:Hu;
      [|eauto].
    destruct (String.eqb (password cred) (strmap_get (postvars req) "password"));
      [|eauto].
    match goal with
    | |- context [totp_valid ?u ?c ?W ?w0] =>
        destruct (totp_valid_defined u c W w0 (Hall _ _ Hu) Hg H1 H2) as ([] & ->)
    end; eauto. }
  destruct (String.eqb (uri req) "/logout"); eauto.
Qed.

(** X15. No request leads a configured server into undefined behaviour:
    when [main] has loaded the configuration, no host has a window of
    [2^31 - 1] or [2^31] generations, and the request has a body (X10),
    then [work] writes an answer, whatever the request holds. *)
Theorem served_request_defined (cfg : setting) (globals : config)
    (env : gmap string string) (input posted : string) (stale : nat -> ascii)
    (w : world RateLimiter) :
  load_config cfg = Loaded globals ->
  (forall (name : string) (wcfg : web_t),
      webcfg globals !! name = Some wcfg ->
      totp_generations wcfg <> 2^31 - 1 /\ totp_generations wcfg <> 2^31) ->
  request_body (env !! "CONTENT_LENGTH") input stale = Some posted ->
  exists (resp : string) (w' : world RateLimiter),
    work_request globals env input stale w = Some (resp, w').
Proof.
  intros H Hgens Hbody.
  destruct (load_config_webs _ _ H) as (es & _ & Hw & _ & _).
  destruct (load_webs_ok _ _ _ Hw) as [Hall _].
  specialize (Hall (map_Forall_empty _)).
  unfold work_request. rewrite Hbody. run_handler. cbv beta iota zeta delta [host].
  destruct (webcfg globals !! default "" (env !! "HTTP_HOST")) as [wptr|] eqn:Hh;
    [|eauto].
  destruct (Hall _ _ Hh) as [Hg Hu]. destruct (Hgens _ _ Hh) as [H1 H2].
  now apply process_req_defined.
Qed.

(** X18. A code outside [0, 10^digits) is never accepted, whatever the
    time and the key: so a [totp] field that reads as a negative number,
    which the handler turns into an [unsigned] above 2^31, cannot log
    in. *)
Theorem code_out_of_range_rejected (u : cred_t) (c W : Z) (w : world RateLimiter) :
  cred_ok u -> 0 <= W <= 2^31 - 2 ->
  c < 0 \/ 10 ^ digits u <= c ->
  totp_valid u c W w = Some (false, tick w).
Proof.
  intros (Hs & Hd & Hp) HW Hc. unfold totp_valid. run_handler.
  replace (period u =? 0) with false by (symmetry; apply Z.eqb_neq; lia).
  assert (Hg : s32 W = W).
  { unfold s32, u32. rewrite Z.mod_small by lia.
    replace (W <? 2 ^ 31) with true by (symmetry; apply Z.ltb_lt; lia).
    reflexivity. }
  rewrite Hg.
  replace (W =? INT_MIN) with false by (symmetry; apply Z.eqb_neq; unfold INT_MIN; lia).
  destruct (totp_scan_spec u c (u32 (Z.quot (now w) (period u)))
              (Z.to_nat (W - - W + 1)) (- W) Hd)
    as ([] & Hb & Hiff); [unfold INT_MAX; lia | | now rewrite Hb].
  exfalso. destruct (proj1 Hiff eq_refl) as (j & _ & Hj).
  rewrite totp_calc_value in Hj by exact Hd. injection Hj as Hj.
  assert (0 < 10 ^ digits u) by (apply Z.pow_pos_nonneg; lia).
  pose proof (Z.mod_pos_bound
                (hotp_value_spec
                   (hmac_of (algorithm u) (totp u)
                      (totp_msg (u32 (u32 (u32 (Z.quot (now w) (period u)) + j))))))
                (10 ^ digits u)).
  lia.
Qed.


End Server.

Arguments create_cookie hmac_sha1 {RateLimiter} cookie_secret user _.
Arguments check_cookie hmac_sha1 {RateLimiter} cookie_secret cookie wcfg _.
Arguments totp_valid hmac_sha1 hmac_sha256 hmac_sha512 {RateLimiter} user input generations _.
Arguments process_req hmac_sha1 hmac_sha256 hmac_sha512 {RateLimiter}
  rl_check rl_consume templates cookie_secret req wcfg _.
Arguments login_form hmac_sha1 hmac_sha256 hmac_sha512 {RateLimiter}
  templates cookie_secret req wcfg rpage _.

(** * The theorems at work on the small installation *)

Local Abbreviation demo_create_cookie :=
  (create_cookie Demo.hmac_sha1 (RateLimiter := gmap Z nat) Demo.secret).
Local Abbreviation demo_check_cookie :=
  (check_cookie Demo.hmac_sha1 (RateLimiter := gmap Z nat) Demo.secret).
Local Abbreviation demo_totp_calc :=
  (totp_calc Demo.hmac_sha1 Demo.hmac_sha256 Demo.hmac_sha512).
Local Abbreviation demo_totp_valid :=
  (totp_valid Demo.hmac_sha1 Demo.hmac_sha256 Demo.hmac_sha512
     (RateLimiter := gmap Z nat)).
Local Abbreviation demo_process_req :=
  (process_req Demo.hmac_sha1 Demo.hmac_sha256 Demo.hmac_sha512
     Demo.rl_check Demo.rl_consume Demo.templates Demo.secret).
Local Abbreviation demo_work_ip64 := (work_ip64 Demo.inet_pton6 Demo.inet_pton4).

Lemma pad_to_length (n : nat) : forall s : string, String.length (pad_to n s) = n.
Proof.
  induction n as [|n IH]; intros s; [reflexivity|].
  destruct s; simpl; now rewrite IH.
Qed.

Lemma demo_sha1_size (k m : string) : String.length (Demo.hmac_sha1 k m) = 20%nat.
Proof. apply pad_to_length. Qed.
Lemma demo_sha256_size (k m : string) : String.length (Demo.hmac_sha256 k m) = 32%nat.
Proof. apply pad_to_length. Qed.
Lemma demo_sha512_size (k m : string) : String.length (Demo.hmac_sha512 k m) = 64%nat.
Proof. apply pad_to_length. Qed.

Ltac by_computation :=
  vm_compute; repeat split; first [reflexivity | discriminate].

(** ** Cookies *)

Lemma cookie_round_trip_witness :
  (exists cookie : string,
      demo_create_cookie "alice" (Demo.at_time 1700000000) =
        Some (cookie, tick (Demo.at_time 1700000000)) /\
      demo_check_cookie cookie Demo.cfg (Demo.at_time 1700003600) =
        Some (true, tick (Demo.at_time 1700003600))) /\
  (exists cookie : string,
      demo_create_cookie "alice" (Demo.at_time 1700000000) =
        Some (cookie, tick (Demo.at_time 1700000000)) /\
      demo_check_cookie cookie Demo.cfg (Demo.at_time 1700003601) =
        Some (false, tick (Demo.at_time 1700003601))) /\
  (exists cookie : string,
      demo_create_cookie "alice" (Demo.at_time 4294967196) =
        Some (cookie, tick (Demo.at_time 4294967196)) /\
      demo_check_cookie cookie Demo.cfg (Demo.at_time 4294970900) =
        Some (true, tick (Demo.at_time 4294970900))).
Proof.
  split; [|split].
  - destruct (cookie_round_trip Demo.hmac_sha1 (gmap Z nat) Demo.secret
                Demo.cfg "alice" Demo.alice
                (Demo.at_time 1700000000) (Demo.at_time 1700003600))
      as (cookie & Hc & Hin & _); [by_computation ..|].
    exists cookie. split; [exact Hc|]. apply Hin. by_computation.
  - destruct (cookie_round_trip Demo.hmac_sha1 (gmap Z nat) Demo.secret
                Demo.cfg "alice" Demo.alice
                (Demo.at_time 1700000000) (Demo.at_time 1700003601))
      as (cookie & Hc & _ & Hout & _); [by_computation ..|].
    exists cookie. split; [exact Hc|]. apply Hout; by_computation.
  - destruct (cookie_round_trip Demo.hmac_sha1 (gmap Z nat) Demo.secret
                Demo.cfg "alice" Demo.alice
                (Demo.at_time 4294967196) (Demo.at_time 4294970900))
      as (cookie & Hc & _ & _ & Hk); [by_computation ..|].
    exists cookie. split; [exact Hc | exact Hk].
Defined.

(** The failing input of C1: once the clock passes 2^32, a cookie issued
    100 seconds before is still accepted 3704 seconds after its issue, for
    a user whose sessions last 3600 seconds, against the comment
    [Not valid if the cookie is too old]. *)
Lemma cookie_accepted_after_deadline :
  exists cookie : string,
    fst <$> demo_create_cookie "alice" (Demo.at_time 4294967196) = Some cookie /\
    fst <$> demo_check_cookie cookie Demo.cfg (Demo.at_time 4294970900) = Some true /\
    users Demo.cfg !! "alice" = Some Demo.alice /\
    4294970900 > 4294967196 + sduration Demo.alice.
Proof.
  eexists. split; [reflexivity|]. by_computation.
Qed.

Lemma check_cookie_denies_witness :
  demo_check_cookie "no colon in sight" Demo.cfg (Demo.at_time 1700000000) =
    Some (false, Demo.at_time 1700000000) /\
  demo_check_cookie ("1700000000" +:+ ":" +:+ "626f62" +:+ ":" +:+ "00")
                    Demo.cfg (Demo.at_time 1700000000) =
    Some (false, Demo.at_time 1700000000) /\
  fst <$> demo_check_cookie ("100" +:+ ":" +:+ "616c696365" +:+ ":" +:+ "00")
                            Demo.cfg (Demo.at_time 1700000000) = Some false /\
  atol "soon" = 0 /\
  fst <$> demo_check_cookie ("soon" +:+ ":" +:+ "616c696365" +:+ ":" +:+ "00")
                            Demo.cfg (Demo.at_time 1700000000) = Some false.
Proof.
  destruct (check_cookie_denies Demo.hmac_sha1 (gmap Z nat) Demo.secret Demo.cfg
              (Demo.at_time 1700000000)) as (H1 & H2 & H3 & H4).
  split; [apply H1; simpl; lia|].
  split; [apply (H2 "1700000000" "626f62" "00" "bob"); by_computation|].
  split; [apply (H3 "100" "616c696365" "00" "alice" Demo.alice); by_computation|].
  destruct (H4 "soon" "616c696365" "00" "alice" Demo.alice) as [Ha Hd];
    [by_computation ..|].
  split; [exact Ha | apply Hd; by_computation].
Defined.

(** The failing inputs of C6. The current time enters the comparison
    cut to 32 bits: a cookie issued at 1700000000 for a session of 3600
    seconds is accepted again 2^32 seconds later. The sum of timestamp and
    duration is computed in [uint64_t]: a signed cookie with the timestamp
    -10000 is never too old. Both go against the comment
    [Not valid if the cookie is too old]. And a first field is not read
    as 0 because it is no decimal integer: [atol] reads the number it
    starts with. *)
Lemma stale_cookie_accepted :
  (exists cookie : string,
      fst <$> demo_create_cookie "alice" (Demo.at_time 1700000000) = Some cookie /\
      users Demo.cfg !! "alice" = Some Demo.alice /\
      now (Demo.at_time 5994967296) > 1700000000 + sduration Demo.alice /\
      fst <$> demo_check_cookie cookie Demo.cfg (Demo.at_time 5994967296) = Some true) /\
  (let payload := "-10000:" +:+ hexencode "alice" in
   let cookie := payload +:+ ":" +:+ hexencode (Demo.hmac_sha1 Demo.secret payload) in
   atol "-10000" = -10000 /\
   now (Demo.at_time 1700000000) > -10000 + sduration Demo.alice /\
   fst <$> demo_check_cookie cookie Demo.cfg (Demo.at_time 1700000000) = Some true) /\
  (let payload := "1700000000abc:" +:+ hexencode "alice" in
   let cookie := payload +:+ ":" +:+ hexencode (Demo.hmac_sha1 Demo.secret payload) in
   decimal_integer "1700000000abc" = false /\
   atol "1700000000abc" = 1700000000 /\
   now (Demo.at_time 1700000060) > 0 + sduration Demo.alice /\
   fst <$> demo_check_cookie cookie Demo.cfg (Demo.at_time 1700000060) = Some true).
Proof.
  split; [eexists; split; [reflexivity|] | split]; by_computation.
Qed.

(** ** TOTP *)

Lemma hotp_truncation_equivalence_witness :
  let h := Demo.hmac_sha1 "0123456789AD" (totp_msg 2271560481) in
  hotp_offset h = 4 /\
  byte_at h 4 = 0x87 /\
  totp_word (byte_at h 4) (byte_at h 5) (byte_at h 6) (byte_at h 7) = hotp_value_spec h /\
  hotp_value_spec h = 0x07654321 /\
  demo_totp_calc "0123456789AD" hAlgoSha1 6 2271560481 = Some 76833.
Proof.
  intros h.
  destruct (hotp_truncation_equivalence _ _ _
              demo_sha1_size demo_sha256_size demo_sha512_size
              "0123456789AD" hAlgoSha1 6 2271560481) as [Hword Hcalc];
    [by_computation|].
  split; [reflexivity|]. split; [reflexivity|].
  split; [exact (Hword h)|]. split; [reflexivity | exact Hcalc].
Defined.

Lemma totp_calc_index_safety_witness :
  hotp_offset (Demo.hmac_sha512 "0123456789AD" (totp_msg 77)) + 3 <= 18 /\
  exists v, demo_totp_calc "0123456789AD" hAlgoSha512 9 77 = Some v.
Proof.
  destruct (totp_calc_index_safety _ _ _
              demo_sha1_size demo_sha256_size demo_sha512_size
              "0123456789AD" hAlgoSha512 9 77)
    as (_ & _ & _ & _ & _ & Hoff & _ & _ & _ & Hv); [by_computation|].
  split; [exact Hoff | exact Hv].
Defined.

Lemma totp_valid_window_witness :
  exists b : bool,
    demo_totp_valid Demo.alice 4 1 (Demo.at_time 90) = Some (b, tick (Demo.at_time 90)) /\
    (b = true <->
     exists i, - 1 <= i <= 1 /\
       demo_totp_calc (totp Demo.alice) (algorithm Demo.alice) (digits Demo.alice)
                      (now (Demo.at_time 90) / period Demo.alice + i) = Some 4).
Proof.
  apply (totp_valid_window _ _ _ (gmap Z nat)
           demo_sha1_size demo_sha256_size demo_sha512_size
           Demo.alice 4 1 (Demo.at_time 90));
    by_computation.
Defined.

(** The failing input of C3: [main] stores [totp_generations = -1] as
    the window 4294967295 without the range check it has for [digits] and
    [period]; the loop of [totp_valid], meant to run from [-W] to [W],
    then runs from 1 to -1 and rejects the current code. *)
Lemma totp_valid_rejects_in_huge_window :
  fst <$> demo_totp_valid Demo.alice 3 (totp_generations Demo.cfg_neg) (Demo.at_time 90) =
    Some false /\
  exists i, - totp_generations Demo.cfg_neg <= i <= totp_generations Demo.cfg_neg /\
    demo_totp_calc (totp Demo.alice) (algorithm Demo.alice) (digits Demo.alice)
                   (now (Demo.at_time 90) / period Demo.alice + i) = Some 3.
Proof.
  split; [reflexivity|]. exists 0. by_computation.
Qed.

(** ** The request handler *)

Lemma auth_dispatch_witness :
  let cookie := "1700000000:616c696365:" +:+
                hexencode (Demo.hmac_sha1 Demo.secret "1700000000:616c696365") in
  (exists (resp : string) (r : response),
      fst <$> demo_process_req
                (Demo.request "GET" "/auth" ∅ ∅ {[ "authentication-token" := cookie ]})
                Demo.cfg (Demo.at_time 1700000060) = Some resp /\
      parse_response resp = Some r /\
      status r = 200 /\ body r = "Authentication Succeeded") /\
  (exists (resp : string) (r : response),
      fst <$> demo_process_req
                (Demo.request "GET" "/auth" ∅ ∅ {[ "authentication-token" := "no:cookie" ]})
                Demo.cfg (Demo.at_time 1700000060) = Some resp /\
      parse_response resp = Some r /\
      status r = 401 /\ body r = "Authentication Denied") /\
  (exists (resp : string) (r : response),
      fst <$> demo_process_req (Demo.request "GET" "/auth" ∅ ∅ ∅) Demo.cfg
                               (Demo.at_time 1700000060) = Some resp /\
      parse_response resp = Some r /\
      status r = 401 /\ body r = "Authentication Denied").
Proof.
  intros cookie. split; [|split].
  - assert (Hin : cookies (Demo.request "GET" "/auth" ∅ ∅
                             {[ "authentication-token" := cookie ]})
                  !! "authentication-token" = Some cookie) by reflexivity.
    destruct (auth_dispatch Demo.hmac_sha1 Demo.hmac_sha256 Demo.hmac_sha512
                (gmap Z nat) Demo.rl_check Demo.rl_consume Demo.templates Demo.secret
                (Demo.request "GET" "/auth" ∅ ∅ {[ "authentication-token" := cookie ]})
                Demo.cfg (Demo.at_time 1700000060) eq_refl) as [Hsome _].
    destruct (Hsome cookie Hin) as (authed & w1 & resp & r & Hck & Hrun & Hp & Hok & _).
    assert (Hacc : demo_check_cookie cookie Demo.cfg (Demo.at_time 1700000060) =
                   Some (true, tick (Demo.at_time 1700000060))) by reflexivity.
    rewrite Hacc in Hck. injection Hck as <- <-.
    exists resp, r. split; [rewrite Hrun; reflexivity|]. split; [exact Hp|].
    now apply Hok.
  - assert (Hin : cookies (Demo.request "GET" "/auth" ∅ ∅
                             {[ "authentication-token" := "no:cookie" ]})
                  !! "authentication-token" = Some "no:cookie") by reflexivity.
    destruct (auth_dispatch Demo.hmac_sha1 Demo.hmac_sha256 Demo.hmac_sha512
                (gmap Z nat) Demo.rl_check Demo.rl_consume Demo.templates Demo.secret
                (Demo.request "GET" "/auth" ∅ ∅
                   {[ "authentication-token" := "no:cookie" ]})
                Demo.cfg (Demo.at_time 1700000060) eq_refl) as [Hsome _].
    destruct (Hsome "no:cookie" Hin)
      as (authed & w1 & resp & r & _ & Hrun & Hp & _ & Hdenied & Hmal).
    exists resp, r. split; [rewrite Hrun; reflexivity|]. split; [exact Hp|].
    apply Hdenied, Hmal. left. simpl. lia.
  - destruct (auth_dispatch Demo.hmac_sha1 Demo.hmac_sha256 Demo.hmac_sha512
                (gmap Z nat) Demo.rl_check Demo.rl_consume Demo.templates Demo.secret
                (Demo.request "GET" "/auth" ∅ ∅ ∅) Demo.cfg (Demo.at_time 1700000060)
                eq_refl) as [_ Hnone].
    destruct (Hnone eq_refl) as (resp & r & Hrun & Hp & Hs & Hb).
    exists resp, r. split; [rewrite Hrun; reflexivity|]. split; [exact Hp|].
    split; [exact Hs | exact Hb].
Defined.

(** C4 as the spec states it fails: a cookie whose first field is no
    decimal integer is malformed, yet with the HMAC of its payload it is
    answered 200 while the number [atol] reads from it is recent enough.
    [check_cookie] does not look at the form of the first field. *)
Lemma malformed_cookie_accepted :
  let payload := "1700000000abc:" +:+ hexencode "alice" in
  let cookie := payload +:+ ":" +:+ hexencode (Demo.hmac_sha1 Demo.secret payload) in
  malformed_cookie cookie /\
  exists (resp : string) (r : response),
    fst <$> demo_process_req
              (Demo.request "GET" "/auth" ∅ ∅ {[ "authentication-token" := cookie ]})
              Demo.cfg (Demo.at_time 1700000060) = Some resp /\
    parse_response resp = Some r /\
    status r = 200 /\ body r = "Authentication Succeeded".
Proof.
  split.
  - right. exists "1700000000abc".
    exists (hexencode "alice" +:+ ":" +:+
            hexencode (Demo.hmac_sha1 Demo.secret
                         ("1700000000abc:" +:+ hexencode "alice"))).
    repeat split.
  - eexists. eexists. by_computation.
Qed.

Lemma login_rate_limit_witness :
  (exists (resp : string) (r : response) (w' : world (gmap Z nat)),
      demo_process_req (Demo.request "POST" "/login" ∅ ∅ ∅) Demo.cfg
        (set_limiter {[ 3232235777 := 0%nat ]} (Demo.at_time 90)) = Some (resp, w') /\
      parse_response resp = Some r /\
      status r = 429 /\ body r = "Too many requests, request blocked" /\
      limiter w' = {[ 3232235777 := 0%nat ]}) /\
  (exists (resp : string) (w' : world (gmap Z nat)),
      demo_process_req (Demo.request "GET" "/login" ∅ ∅ ∅) Demo.cfg (Demo.at_time 90) =
        Some (resp, w') /\
      Demo.tokens 3232235777 (limiter (Demo.at_time 90)) = 2%nat /\
      Demo.tokens 3232235777 (limiter w') = 1%nat).
Proof.
  split.
  - assert (Hck : Demo.rl_check (ip64 (Demo.request "POST" "/login" ∅ ∅ ∅))
                    (limiter (set_limiter {[ 3232235777 := 0%nat ]} (Demo.at_time 90))) =
                  (true, {[ 3232235777 := 0%nat ]})) by reflexivity.
    destruct (login_rate_limit Demo.hmac_sha1 Demo.hmac_sha256 Demo.hmac_sha512
                (gmap Z nat) Demo.rl_check Demo.rl_consume Demo.templates Demo.secret
                (Demo.request "POST" "/login" ∅ ∅ ∅) Demo.cfg
                (set_limiter {[ 3232235777 := 0%nat ]} (Demo.at_time 90))
                true {[ 3232235777 := 0%nat ]} eq_refl Hck)
      as [Hdenied _].
    destruct (Hdenied eq_refl) as (resp & r & Hrun & Hparse & Hstatus & Hbody).
    exists resp, r. eexists. split; [exact Hrun|].
    split; [exact Hparse|]. split; [exact Hstatus|]. split; [exact Hbody|]. reflexivity.
  - assert (Hck : Demo.rl_check (ip64 (Demo.request "GET" "/login" ∅ ∅ ∅))
                    (limiter (Demo.at_time 90)) = (false, ∅)) by reflexivity.
    destruct (login_rate_limit Demo.hmac_sha1 Demo.hmac_sha256 Demo.hmac_sha512
                (gmap Z nat) Demo.rl_check Demo.rl_consume Demo.templates Demo.secret
                (Demo.request "GET" "/login" ∅ ∅ ∅) Demo.cfg (Demo.at_time 90)
                false ∅ eq_refl Hck)
      as [_ Hallowed].
    destruct (Hallowed eq_refl) as [_ Hlimiter].
    eexists. eexists. split; [reflexivity|]. split; [reflexivity|].
    erewrite Hlimiter by reflexivity. reflexivity.
Defined.

Lemma login_success_witness :
  let form : gmap string string :=
    {[ "username" := "alice"; "password" := "pw"; "totp" := "3";
       "follow_page" := "/home" +:+ CRLF +:+ "Set-Cookie: x=y" ]} in
  demo_process_req (Demo.request "POST" "/login" ∅ form ∅) Demo.cfg (Demo.at_time 90) =
    Some ("Status: 302" +:+ CRLF +:+
          "Set-Cookie: authentication-token=" +:+
          "90:616c696365:39303a3631366336393633363530313233343536" +:+ CRLF +:+
          "Location: /homeSet-Cookie: x=y" +:+ CRLF +:+ CRLF,
          tick (add_log "Login successful for user alice"
                  (tick (set_limiter (Demo.rl_consume 3232235777 ∅) (Demo.at_time 90))))).
Proof.
  intros form.
  assert (Hck : Demo.rl_check (ip64 (Demo.request "POST" "/login" ∅ form ∅))
                  (limiter (Demo.at_time 90)) = (false, ∅)) by reflexivity.
  destruct (login_success Demo.hmac_sha1 Demo.hmac_sha256 Demo.hmac_sha512
              (gmap Z nat) Demo.rl_check Demo.rl_consume Demo.templates Demo.secret
              (Demo.request "POST" "/login" ∅ form ∅) Demo.cfg (Demo.at_time 90) ∅
              eq_refl eq_refl Hck)
    as (Hok & _).
  destruct (Hok Demo.alice
              (tick (set_limiter (Demo.rl_consume 3232235777 ∅) (Demo.at_time 90))))
    as (_ & Hrun & _); [by_computation ..|].
  exact Hrun.
Defined.

Lemma unknown_uri_response_witness :
  exists (resp : string) (r : response),
    fst <$> demo_process_req (Demo.request "GET" "/status" ∅ ∅ ∅) Demo.cfg
                             (Demo.at_time 1700000000) = Some resp /\
    parse_response resp = Some r /\
    status r = 404 /\
    header "Content-Length" (headers r) = Some "48" /\
    body r = "".
Proof.
  destruct (unknown_uri_response Demo.hmac_sha1 Demo.hmac_sha256 Demo.hmac_sha512
              (gmap Z nat) Demo.rl_check Demo.rl_consume Demo.templates Demo.secret
              (Demo.request "GET" "/status" ∅ ∅ ∅) Demo.cfg (Demo.at_time 1700000000))
    as (resp & r & Hrun & Hparse & Hstatus & _ & Hlen & _ & Hbody & _);
    [discriminate ..|].
  exists resp, r. repeat split; assumption.
Defined.

(** ** The client key *)

Lemma client_key_witness :
  (0 <= demo_work_ip64 (Some "2001:db8:1::7") < 2^48 /\
   Z.land (Z.shiftr (demo_work_ip64 (Some "2001:db8:1::7")) 40) 255 = 0x20 /\
   Z.land (Z.shiftr (demo_work_ip64 (Some "2001:db8:1::7")) 0) 255 = 0x01) /\
  demo_work_ip64 (Some "192.168.1.1") = 0x0101a8c0 /\
  demo_work_ip64 (Some "not an address") = 0 /\
  demo_work_ip64 None = 0.
Proof.
  split; [|split; [|split]].
  - destruct (client_key Demo.inet_pton6 Demo.inet_pton4 (Some "2001:db8:1::7"))
      as (H6 & _ & _).
    destruct (H6 Demo.addr6 eq_refl) as [Hrange Hbytes].
    split; [exact Hrange|]. split.
    + apply (Hbytes 0%nat). lia.
    + apply (Hbytes 5%nat). lia.
  - destruct (client_key Demo.inet_pton6 Demo.inet_pton4 (Some "192.168.1.1"))
      as (_ & H4 & _).
    destruct (H4 {| s_addr := 0x0101a8c0 |} eq_refl eq_refl) as [Hkey _].
    exact Hkey.
  - destruct (client_key Demo.inet_pton6 Demo.inet_pton4 (Some "not an address"))
      as (_ & _ & H0).
    exact (H0 eq_refl eq_refl).
  - destruct (client_key Demo.inet_pton6 Demo.inet_pton4 None) as (_ & _ & H0).
    exact (H0 eq_refl eq_refl).
Defined.

(** C9 as the spec states it fails: the six bytes are not in the upper 48
    bits of the key. For 2001:db8:1::7 the upper 16 bits are empty and the
    lower 16 bits hold bytes 4 and 5. *)
Lemma ip6_key_not_in_upper_bits :
  let key := demo_work_ip64 (Some "2001:db8:1::7") in
  key = 0x20010db80001 /\
  Z.shiftr key 48 = 0 /\
  Z.land key 0xffff = 0x0001 /\
  Z.shiftr key 16 <> 0x20010db80001.
Proof. by_computation. Qed.

(** ** The model at work *)

Example to_string_examples :
  to_string 1700000000 = "1700000000" /\ to_string 0 = "0" /\ to_string (-42) = "-42".
Proof. repeat split. Qed.

Example atol_examples :
  atol "1700000000" = 1700000000 /\ atol "  -17abc" = -17 /\ atol "abc" = 0 /\
  atol "99999999999999999999" = LONG_MAX.
Proof. repeat split. Qed.

Example hex_examples :
  hexencode "alice" = "616c696365" /\ hexdecode "616C696365" = Some "alice" /\
  hexdecode "616" = None /\ hexdecode "6g" = None.
Proof. repeat split. Qed.

Example cookie_example :
  fst <$> demo_create_cookie "alice" (Demo.at_time 1700000000) =
  Some ("1700000000:616c696365:" +:+
        hexencode (Demo.hmac_sha1 Demo.secret "1700000000:616c696365")).
Proof. reflexivity. Qed.

Example totp_example :
  demo_totp_calc (totp Demo.alice) hAlgoSha1 6 3 = Some 3 /\
  fst <$> demo_totp_valid Demo.alice 2 1 (Demo.at_time 90) = Some true /\
  fst <$> demo_totp_valid Demo.alice 5 1 (Demo.at_time 90) = Some false.
Proof. repeat split. Qed.

Example login_page_example :
  fst <$> demo_process_req
            (Demo.request "GET" "/login" {[ "follow_page" := "/home" ]} ∅ ∅)
            Demo.cfg (Demo.at_time 90) =
  Some ("Status: 200" +:+ CRLF +:+ "Content-Type: text/html" +:+ CRLF +:+
        "Content-Length: 24" +:+ CRLF +:+ CRLF +:+ "<form example.org /home>").
Proof. reflexivity. Qed.

Example logout_example :
  exists resp r,
    fst <$> demo_process_req (Demo.request "GET" "/logout" ∅ ∅ ∅) Demo.cfg
                             (Demo.at_time 90) = Some resp /\
    parse_response resp = Some r /\
    status r = 302 /\
    header "Set-Cookie" (headers r) = Some "authentication-token=null" /\
    header "Location" (headers r) = Some "/login".
Proof. eexists. eexists. repeat split. Qed.

(** * Sessions across workers, and runs of the further properties *)

Local Abbreviation site_work_request :=
  (work_request Demo.hmac_sha1 Demo.hmac_sha256 Demo.hmac_sha512 (gmap Z nat)
     Demo.rl_check Demo.rl_consume Demo.templates Demo.inet_pton6 Demo.inet_pton4
     Demo.secret Site.parse_none Site.parse_none).
Local Abbreviation site_load_config := (load_config Site.b32pad Site.b32dec).
Local Abbreviation site_load_user := (load_user Site.b32pad Site.b32dec).

(** Names the value [t] computes to. *)
Ltac computed H t :=
  let v := eval vm_compute in t in
  assert (H : t = v) by (vm_compute; reflexivity).

(** X16. Every worker signs and checks cookies with the configured secret
    when there is one, and with a random string of its own when the
    configured secret is empty. A cookie that one worker issues is
    accepted by another, before it expires, exactly when the two workers'
    HMACs of its payload agree: always with a configured secret, and with
    an empty one only if the two random strings give the same HMAC. *)
Theorem workers_share_sessions (hmac : string -> string -> string) (RL : Type)
    (csecret rnd1 rnd2 : string) (wcfg : web_t) (u : string) (c : cred_t)
    (w1 w2 : world RL) :
  users wcfg !! u = Some c ->
  0 <= sduration c < 2^32 ->
  0 <= now w1 <= LONG_MAX ->
  u32 (now w2) <= now w1 + sduration c ->
  let s1 := worker_secret csecret rnd1 in
  let s2 := worker_secret csecret rnd2 in
  let payload := to_string (now w1) +:+ ":" +:+ hexencode u in
  exists cookie : string,
    create_cookie hmac s1 u w1 = Some (cookie, tick w1) /\
    check_cookie hmac s2 cookie wcfg w2 =
      Some (String.eqb (hmac s1 payload) (hmac s2 payload), tick w2) /\
    (is_empty csecret = false ->
     check_cookie hmac s2 cookie wcfg w2 = Some (true, tick w2)).
Proof.
  intros Hu Hd Ht Hle s1 s2 payload.
  eexists. split; [apply create_cookie_run|]. cbv zeta. rewrite !append_assoc.
  fold payload.
  assert (Hck : check_cookie hmac s2
                  (to_string (now w1) +:+ ":" +:+ hexencode u +:+ ":" +:+
                   hexencode (hmac s1 payload)) wcfg w2 =
                Some (String.eqb (hmac s1 payload) (hmac s2 payload), tick w2)).
  { rewrite check_cookie_fields
      by (apply to_string_no_colon || apply hexencode_no_colon).
    rewrite !hexdecode_hexencode, Hu.
    rewrite atol_to_string by (unfold LONG_MIN, LONG_MAX in *; lia).
    unfold u64, LONG_MAX in *.
    rewrite (Z.mod_small (now w1)) by lia.
    rewrite (Z.mod_small (now w1 + sduration c)) by lia.
    replace (u32 (now w2) >? now w1 + sduration c) with false
      by (symmetry; rewrite Z.gtb_ltb; apply Z.ltb_ge; exact Hle).
    reflexivity. }
  split; [exact Hck|].
  intros Hne. rewrite Hck. unfold s1, s2, worker_secret. rewrite Hne.
  now rewrite String.eqb_refl.
Qed.

(** With an empty configured secret and the random strings [r1] and
    [r2], the second worker turns down the session of the first. *)
Lemma workers_share_sessions_witness :
  exists cookie : string,
    create_cookie Site.keyed_mac (worker_secret "" "r1") "alice" (Demo.at_time 1700000000) =
      Some (cookie, tick (Demo.at_time 1700000000)) /\
    check_cookie Site.keyed_mac (worker_secret "" "r2") cookie Demo.cfg
                 (Demo.at_time 1700000060) =
      Some (false, tick (Demo.at_time 1700000060)).
Proof.
  destruct (workers_share_sessions Site.keyed_mac (gmap Z nat) "" "r1" "r2"
              Demo.cfg "alice" Demo.alice
              (Demo.at_time 1700000000) (Demo.at_time 1700000060))
    as (cookie & Hc & Hk & _); [by_computation ..|].
  exists cookie. split; [exact Hc | exact Hk].
Defined.

(** ** Two facts that need nothing of the server *)

(** X8. The message [totp_calc] hands to the HMAC is the counter as an
    unsigned 64-bit number in network byte order: eight bytes that spell
    the counter, most significant byte first. Two counters that differ
    modulo 2^32 give different messages. *)
Theorem totp_msg_big_endian (epoch epoch' : Z) :
  String.length (totp_msg (u32 epoch)) = 8%nat /\
  be_value (totp_msg (u32 epoch)) 0 = u32 epoch /\
  (totp_msg (u32 epoch) = totp_msg (u32 epoch') -> u32 epoch = u32 epoch').
Proof.
  assert (Hval : forall e, be_value (totp_msg (u32 e)) 0 = u32 e).
  { intros e. generalize (u32_range e). generalize (u32 e). intros x He.
    unfold totp_msg. cbn [be_value]. rewrite !byte_val_chr.
    change (byte_val zero) with 0.
    rewrite !Z.shiftr_div_pow2 by lia. change 255 with (Z.ones 8).
    rewrite !Z.land_ones by lia.
    change (2 ^ 32) with 4294967296 in He. change (2 ^ 24) with 16777216.
    change (2 ^ 16) with 65536. change (2 ^ 8) with 256.
    Z.div_mod_to_equations. lia. }
  split; [reflexivity|]. split; [apply Hval|].
  intros Heq. rewrite <- (Hval epoch), <- (Hval epoch'). now rewrite Heq.
Qed.

(** X17. The users a host ends up with are the users its entries name:
    after the loop over the entries, a name is in the map exactly when it
    was there before or some entry has it as its [username]. *)
Theorem loaded_users_are_configured (b32pad b32dec : string -> string)
    (es : list setting) (name : string) :
  forall users0 m : gmap string cred_t,
    load_users b32pad b32dec es users0 = Loaded m ->
    (is_Some (m !! name) <->
     is_Some (users0 !! name) \/
     Exists (fun e => config_setting_get_member e "username" = Some (CfgString name)) es).
Proof.
  induction es as [|e es IH]; intros users0 m H.
  - injection H as <-. rewrite Exists_nil. tauto.
  - cbn [load_users] in H.
    destruct (load_user b32pad b32dec e users0) as [users1| |] eqn:He;
      cbv beta iota delta [mbind outcome_bind] in H; try discriminate H.
    destruct (load_user_stores _ _ _ _ _ He)
      as (n & pw & key & dur & cred & Hn & _ & _ & _ & -> & _).
    rewrite (IH _ _ H), Exists_cons, lookup_insert_is_Some, Hn.
    destruct (decide (n = name)) as [-> | Hne].
    + tauto.
    + split.
      * intros [[Heq | [_ Hs]] | Hex]; [contradiction | tauto | tauto].
      * intros [Hs | [[= Heq] | Hex]]; [tauto | contradiction | tauto].
Qed.

(** ** Runs of the handler *)

Lemma response_well_formed_witness :
  exists (resp : string) (r : response),
    fst <$> demo_process_req (Demo.request "GET" "/login" ∅ ∅ ∅) Demo.cfg
                             (Demo.at_time 90) = Some resp /\
    parse_response resp = Some r /\
    In (status r) [200; 302; 401; 404; 429; 500] /\
    (status r <> 302 ->
       exists t v, header "Content-Type" (headers r) = Some t /\
                   header "Content-Length" (headers r) = Some v /\
                   (status r <> 404 -> v = to_string (Z.of_nat (String.length (body r))))).
Proof.
  computed Hrun (demo_process_req (Demo.request "GET" "/login" ∅ ∅ ∅) Demo.cfg
                                  (Demo.at_time 90)).
  destruct (response_well_formed _ _ _ _ _ _ _ _ _ _ _ _ _ Hrun)
    as (r & Hp & Hin & _ & Hlen).
  eexists. exists r. split; [rewrite Hrun; reflexivity|].
  split; [exact Hp|]. split; [exact Hin | exact Hlen].
Defined.


Lemma limiter_untouched_outside_login_witness :
  exists w' : world (gmap Z nat),
    snd <$> demo_process_req (Demo.request "GET" "/auth" ∅ ∅ ∅) Demo.cfg
                             (Demo.at_time 90) = Some w' /\
    limiter w' = limiter (Demo.at_time 90) /\
    clock w' = clock (Demo.at_time 90).
Proof.
  computed Hrun (demo_process_req (Demo.request "GET" "/auth" ∅ ∅ ∅) Demo.cfg
                                  (Demo.at_time 90)).
  assert (Hn : uri (Demo.request "GET" "/auth" ∅ ∅ ∅) <> "/login") by discriminate.
  destruct (limiter_untouched_outside_login _ _ _ _ _ _ _ _ _ _ _ _ _ Hn Hrun)
    as (Hl & Hc & _).
  eexists. split; [rewrite Hrun; reflexivity|]. split; [exact Hl | exact Hc].
Defined.

Lemma log_lines_witness :
  let form : gmap string string :=
    {[ "username" := "alice"; "password" := "guess"; "totp" := "3" ]} in
  exists (w' : world (gmap Z nat)) (line : string),
    snd <$> demo_process_req (Demo.request "POST" "/login" ∅ form ∅) Demo.cfg
                             (Demo.at_time 90) = Some w' /\
    logged w' = logged (Demo.at_time 90) ++ [line] /\
    In line ["Requested authentication succeeded"; "Requested authentication denied";
             "Rate limit hit for ip id 3232235777";
             "Login successful for user alice"; "Failed login for user alice";
             "Logout requested"; "Unknown request for URL: /login"].
Proof.
  intros form.
  computed Hrun (demo_process_req (Demo.request "POST" "/login" ∅ form ∅) Demo.cfg
                                  (Demo.at_time 90)).
  destruct (log_lines _ _ _ _ _ _ _ _ _ _ _ _ _ Hrun)
    as [(_ & _ & Hm & _) | (line & Hlog & Hin)]; [now contradiction Hm|].
  eexists. exists line. split; [rewrite Hrun; reflexivity|].
  split; [exact Hlog | exact Hin].
Defined.


(** ** Runs of the one-time codes *)

Lemma totp_calc_defined_witness :
  (is_Some (demo_totp_calc "0123456789AD" hAlgoSha1 10 3) <-> u8 10 <= 9) /\
  (forall v, demo_totp_calc "0123456789AD" hAlgoSha1 10 3 = Some v -> 0 <= v < 10 ^ u8 10) /\
  demo_totp_calc "0123456789AD" hAlgoSha1 (10 + 256) (3 + 2^32) =
    demo_totp_calc "0123456789AD" hAlgoSha1 10 3.
Proof.
  exact (totp_calc_defined Demo.hmac_sha1 Demo.hmac_sha256 Demo.hmac_sha512
           demo_sha1_size demo_sha256_size demo_sha512_size
           "0123456789AD" hAlgoSha1 10 3).
Defined.

Lemma totp_window_monotone_witness :
  demo_totp_valid Demo.alice 3 5 (Demo.at_time 90) = Some (true, tick (Demo.at_time 90)).
Proof.
  apply (totp_window_monotone Demo.hmac_sha1 Demo.hmac_sha256 Demo.hmac_sha512
           (gmap Z nat) demo_sha1_size demo_sha256_size demo_sha512_size
           Demo.alice 3 0 5 (Demo.at_time 90));
    first [by_computation | simpl; lia].
Defined.

(** ** Runs of [work] and of the loader *)

(** A request that announces ten bytes and sends two, after a request
    with the body [username=a]. *)
Lemma request_body_bounded_witness :
  request_body (Some "10") "hi" Site.stale = Some "hiername=a" /\
  exists v : string,
    Some "10" = Some v /\
    Z.of_nat (String.length "hiername=a") <= Z.max 0 (Z.min (atoi v) MAX_REQ_SIZE) <= 4096 /\
    contains zero "hiername=a" = false /\
    (forall (i : nat) (c : ascii),
        String.get i "hiername=a" = Some c ->
        String.get i "hi" = Some c \/
        ((String.length "hi" <= i)%nat /\ c = Site.stale i)) /\
    (Z.max 0 (Z.min (atoi v) MAX_REQ_SIZE) <= Z.of_nat (String.length "hi") ->
     String.prefix "hiername=a" "hi" = true).
Proof.
  split; [reflexivity|].
  apply (request_body_bounded (Some "10") "hi" "hiername=a" Site.stale). reflexivity.
Defined.

Lemma request_body_received_witness :
  request_body (Some (to_string (Z.of_nat (String.length "username=alice"))))
               "username=alice" Site.stale = Some "username=alice".
Proof.
  apply (request_body_received "username=alice" Site.stale); [simpl; lia | reflexivity].
Defined.

Lemma unknown_host_response_witness :
  exists (resp : string) (r : response),
    site_work_request Site.globals (Site.env "elsewhere.org") "" Site.stale
                      (Demo.at_time 90) =
      Some (resp, add_log "Failed to find host 'elsewhere.org'" (Demo.at_time 90)) /\
    parse_response resp = Some r /\
    status r = 500 /\
    body r = "Unknown hostname: elsewhere.org" /\
    header "Content-Length" (headers r) = Some "31".
Proof.
  destruct (unknown_host_response Demo.hmac_sha1 Demo.hmac_sha256 Demo.hmac_sha512
              (gmap Z nat) Demo.rl_check Demo.rl_consume Demo.templates
              Demo.inet_pton6 Demo.inet_pton4 Demo.secret Site.parse_none Site.parse_none
              Site.globals (Site.env "elsewhere.org") "" "0" Site.stale (Demo.at_time 90))
    as (resp & r & Hrun & Hp & Hs & Hb & _ & Hl); [reflexivity ..|].
  exists resp, r. split; [exact Hrun|]. split; [exact Hp|]. split; [exact Hs|].
  split; [exact Hb|]. rewrite Hl, Hb. reflexivity.
Defined.

Lemma loaded_config_invariant_witness :
  exists globals : config,
    site_load_config Site.file = Loaded globals /\
    nthreads globals = 1 /\
    webcfg globals <> ∅ /\
    forall (name : string) (wcfg : web_t),
      webcfg globals !! name = Some wcfg ->
      0 <= totp_generations wcfg < 2^32 /\
      forall (user : string) (cred : cred_t),
        users wcfg !! user = Some cred -> cred_ok cred.
Proof.
  computed Hload (site_load_config Site.file).
  destruct (loaded_config_invariant _ _ _ _ Hload) as (_ & _ & Hne & Hall).
  eexists. split; [exact Hload|]. split; [reflexivity|].
  split; [exact Hne | exact Hall].
Defined.

(** The second entry for [alice] replaces the first, and its duration of
    -1 is stored as [(unsigned)-1]. *)
Lemma load_user_overwrites_witness :
  exists (users' : gmap string cred_t) (cred : cred_t),
    site_load_user (Site.user_entry "alice" "newer" (-1) [])
                   {[ "alice" := Demo.alice; "bob" := Demo.alice ]} = Loaded users' /\
    users' !! "alice" = Some cred /\
    password cred = "newer" /\
    sduration cred = 4294967295 /\
    users' !! "bob" = Some Demo.alice.
Proof.
  computed Hload (site_load_user
                    (Site.user_entry "alice" "newer" (-1) [])
                    {[ "alice" := Demo.alice; "bob" := Demo.alice ]}).
  destruct (load_user_overwrites _ _ _ _ _ Hload)
    as (name & pw & key & dur & cred & Hn & Hp & _ & Hd & Hl & Hpw & _ & Hs & Hother).
  injection Hn as <-. injection Hp as <-. injection Hd as <-.
  eexists. exists cred. split; [exact Hload|]. split; [exact Hl|].
  split; [exact Hpw|]. split; [exact Hs|].
  rewrite Hother by discriminate. reflexivity.
Defined.

Lemma served_request_defined_witness :
  exists (resp : string) (w' : world (gmap Z nat)),
    site_work_request
      {| nthreads := 1; auths_per_second := 2; secret := "0123456789abcdef";
         logpath := "/tmp/totp_auth";
         webcfg := {[ "example.org" :=
           {| webtemplate := "login"; totp_generations := 1;
              users := {[ "alice" :=
                           {| password := "newer"; totp := "JBSWY3DPEHPK3PXP";
                              sduration := 4294967295; digits := 6; period := 30;
                              algorithm := hAlgoSha1 |};
                          "bob" :=
                           {| password := "hunter2"; totp := "JBSWY3DPEHPK3PXP";
                              sduration := 3600; digits := 8; period := 60;
                              algorithm := hAlgoSha512 |} ]} |} ]} |}
      (Site.env "example.org") "" Site.stale (Demo.at_time 90) = Some (resp, w').
Proof.
  apply (served_request_defined Demo.hmac_sha1 Demo.hmac_sha256 Demo.hmac_sha512
           (gmap Z nat) Demo.rl_check Demo.rl_consume Demo.templates
           Demo.inet_pton6 Demo.inet_pton4 Demo.secret Site.parse_none Site.parse_none
           Site.b32pad Site.b32dec demo_sha1_size demo_sha256_size demo_sha512_size
           Site.file _ (Site.env "example.org") "" "" Site.stale).
  - vm_compute. reflexivity.
  - intros name wcfg Hl. cbn [webcfg] in Hl.
    apply lookup_singleton_Some in Hl as [_ <-].
    split; discriminate.
  - reflexivity.
Defined.

Lemma loaded_users_are_configured_witness :
  exists m : gmap string cred_t,
    load_users Site.b32pad Site.b32dec
      [Site.user_entry "alice" "pw" 3600 []; Site.user_entry "bob" "hunter2" 60 []] ∅ =
      Loaded m /\
    is_Some (m !! "bob") /\ ~ is_Some (m !! "carol").
Proof.
  computed Hload (load_users Site.b32pad Site.b32dec
                    [Site.user_entry "alice" "pw" 3600 [];
                     Site.user_entry "bob" "hunter2" 60 []] ∅).
  eexists. split; [exact Hload|]. split.
  - apply (proj2 (loaded_users_are_configured _ _ _ "bob" _ _ Hload)).
    right. apply Exists_cons_tl. apply Exists_cons_hd. reflexivity.
  - intros Hs.
    apply (proj1 (loaded_users_are_configured _ _ _ "carol" _ _ Hload)) in Hs.
    destruct Hs as [[x Hx] | Hex]; [discriminate Hx|].
    repeat match goal with
           | H : Exists _ (_ :: _) |- _ => apply Exists_cons in H as [H | H]
           | H : Exists _ [] |- _ => apply Exists_nil in H
           end; try discriminate; contradiction.
Defined.

Lemma code_out_of_range_rejected_witness :
  demo_totp_valid Demo.alice (u32 (atoi "-1")) 1 (Demo.at_time 90) =
    Some (false, tick (Demo.at_time 90)).
Proof.
  apply (code_out_of_range_rejected Demo.hmac_sha1 Demo.hmac_sha256 Demo.hmac_sha512
           (gmap Z nat) demo_sha1_size demo_sha256_size demo_sha512_size
           Demo.alice (u32 (atoi "-1")) 1 (Demo.at_time 90)).
  - unfold cred_ok. simpl. lia.
  - lia.
  - right. vm_compute. discriminate.
Defined.

